(** * The semantic similarity subsystem of the legal case system

    A shallow embedding of [similarity_engine.py]: the field flattening
    helper, the legal term normaliser with its six regular expression
    rewrites, the weighted text composer, the embedding cache manager and
    the two ranking entry points of [SimilarityCaseFinder].

    Conventions of the model.
    - Text is a [string]; each character stands for one code point below
      256, classified as Python classifies it there.
    - A JSON value is a [value]; a Python [dict] is an association list in
      insertion order, because [dict.values()] iterates in that order.
    - Similarity scores are rationals; floating point rounding and NaN are
      outside the model.
    - Calls return what the function computes; the depth of the
      interpreter's stack is counted for [flatten_field], the one
      recursive function, in [flatten_field_within].
    - The embedding model, [cosine_similarity] and [numpy.argsort] are the
      program's collaborators: they appear as the class [Backend]. *)

From Stdlib Require Import List Bool Arith ZArith QArith Lia.
From Stdlib Require Import Ascii String DecimalString.
From Stdlib Require Import Permutation Sorted.
Import ListNotations.

#[local] Set Warnings "-register-all".

Local Open Scope string_scope.
Local Open Scope list_scope.
Local Open Scope nat_scope.

Local Infix "+++" := String.append (right associativity, at level 60).

(** ** Characters and strings as Python sees them *)

Module PyStr.

Definition code (c : ascii) : nat := nat_of_ascii c.

Definition between (lo hi : nat) (c : ascii) : bool :=
  (lo <=? code c) && (code c <=? hi).

(** [str.isspace] on one character, which is also what the pattern [\s]
    accepts: TAB..CR, FS..US, space, NEL and the no-break space. *)
Definition isspace (c : ascii) : bool :=
  between 9 13 c || between 28 32 c || (code c =? 133) || (code c =? 160).

(** The decimal digits accepted by [\d]. *)
Definition isdigit (c : ascii) : bool := between 48 57 c.

Definition isupper_ascii (c : ascii) : bool := between 65 90 c.
Definition islower_ascii (c : ascii) : bool := between 97 122 c.

(** The word characters of [\w]: alphanumerics and the underscore.  Below
    256 the alphanumerics are the ASCII ones, the Latin-1 letters, the
    superscript digits and the vulgar fractions. *)
Definition isword (c : ascii) : bool :=
  isdigit c || isupper_ascii c || islower_ascii c || (code c =? 95)
  || (code c =? 170) || (code c =? 178) || (code c =? 179) || (code c =? 181)
  || (code c =? 185) || (code c =? 186) || between 188 190 c
  || between 192 214 c || between 216 246 c || between 248 255 c.

(** Case folding of the ASCII letters, for patterns compiled with
    [re.IGNORECASE]. *)
Definition lower (c : ascii) : ascii :=
  if isupper_ascii c then ascii_of_nat (code c + 32) else c.

Definition is_empty (s : string) : bool :=
  match s with EmptyString => true | String _ _ => false end.

Fixpoint lstrip (s : string) : string :=
  match s with
  | EmptyString => EmptyString
  | String c r => if isspace c then lstrip r else s
  end.

Fixpoint rstrip (s : string) : string :=
  match s with
  | EmptyString => EmptyString
  | String c r =>
      let r' := rstrip r in
      if isspace c && is_empty r' then EmptyString else String c r'
  end.

(** [s.strip()] *)
Definition strip (s : string) : string := rstrip (lstrip s).

(** [s[:n]] for a non-negative literal [n]. *)
Fixpoint take (n : nat) (s : string) : string :=
  match n, s with
  | S k, String c r => String c (take k r)
  | _, _ => EmptyString
  end.

(** [sep.join(parts)] *)
Definition join (sep : string) (parts : list string) : string :=
  String.concat sep parts.

Fixpoint contains (c : ascii) (s : string) : bool :=
  match s with
  | EmptyString => false
  | String x r => Ascii.eqb x c || contains c r
  end.

Fixpoint all_space (s : string) : bool :=
  match s with
  | EmptyString => true
  | String c r => isspace c && all_space r
  end.

(** The test [t and t.strip()] that the code applies to chunks. *)
Definition nonblank (s : string) : bool :=
  negb (is_empty s) && negb (is_empty (strip s)).

Definition hexdigit (n : nat) : ascii :=
  if n <? 10 then ascii_of_nat (48 + n) else ascii_of_nat (87 + n).

Definition squote : ascii := ascii_of_nat 39.
Definition dquote : ascii := ascii_of_nat 34.
Definition backslash : ascii := ascii_of_nat 92.

Definition escape_char (quote c : ascii) : string :=
  let n := code c in
  if Ascii.eqb c quote || Ascii.eqb c backslash
  then String backslash (String c EmptyString)
  else if n =? 9 then String backslash "t"
  else if n =? 10 then String backslash "n"
  else if n =? 13 then String backslash "r"
  else if (n <? 32) || (n =? 127) || between 128 160 c || (n =? 173)
  then String backslash
         (String "x" (String (hexdigit (n / 16)) (String (hexdigit (n mod 16)) EmptyString)))
  else String c EmptyString.

Fixpoint escape (quote : ascii) (s : string) : string :=
  match s with
  | EmptyString => EmptyString
  | String c r => escape_char quote c +++ escape quote r
  end.

(** [repr(s)] of a [str]: single quotes unless the text has a single
    quote and no double quote. *)
Definition repr (s : string) : string :=
  let quote := if contains squote s && negb (contains dquote s)
               then dquote else squote in
  String quote (escape quote s +++ String quote EmptyString).

(** [str(n)] of an [int]. *)
Definition of_Z (z : Z) : string := NilZero.string_of_int (Z.to_int z).

End PyStr.

(** ** JSON values *)

Inductive value : Type :=
| VNone
| VBool (b : bool)
| VInt (z : Z)
| VStr (s : string)
| VList (items : list value)
| VDict (entries : list (string * value)).

Definition dict := list (string * value).

(** Truth value of a Python object, as [if v:] tests it. *)
Definition truthy (v : value) : bool :=
  match v with
  | VNone => false
  | VBool b => b
  | VInt z => negb (z =? 0)%Z
  | VStr s => negb (PyStr.is_empty s)
  | VList l => match l with [] => false | _ => true end
  | VDict d => match d with [] => false | _ => true end
  end.

(** [a or b] *)
Definition py_or (a b : value) : value := if truthy a then a else b.

Fixpoint lookup (k : string) (d : dict) : option value :=
  match d with
  | [] => None
  | (k', v) :: d' => if String.eqb k k' then Some v else lookup k d'
  end.

(** [d.get(k, default)] *)
Definition dict_get (d : dict) (k : string) (default : value) : value :=
  match lookup k d with Some v => v | None => default end.

(** [repr(v)] *)
Fixpoint py_repr (v : value) : string :=
  match v with
  | VNone => "None"
  | VBool true => "True"
  | VBool false => "False"
  | VInt z => PyStr.of_Z z
  | VStr s => PyStr.repr s
  | VList l => "[" +++ PyStr.join ", " (map py_repr l) +++ "]"
  | VDict d =>
      "{" +++ PyStr.join ", "
                (map (fun kv => let '(k, x) := kv in PyStr.repr k +++ ": " +++ py_repr x) d)
          +++ "}"
  end.

(** [str(v)], which is also what an f-string field [{v}] renders. *)
Definition py_str (v : value) : string :=
  match v with
  | VStr s => s
  | _ => py_repr v
  end.

(** [a == b]: booleans compare as the integers 0 and 1, lists
    element-wise, dicts key by key whatever the insertion order. *)
Fixpoint py_eq (a b : value) {struct a} : bool :=
  match a, b with
  | VNone, VNone => true
  | VBool x, VBool y => Bool.eqb x y
  | VBool x, VInt z | VInt z, VBool x => (z =? (if x then 1 else 0))%Z
  | VInt x, VInt y => (x =? y)%Z
  | VStr x, VStr y => String.eqb x y
  | VList la, VList lb =>
      (fix go (la lb : list value) {struct la} : bool :=
         match la, lb with
         | [], [] => true
         | x :: la', y :: lb' => py_eq x y && go la' lb'
         | _, _ => false
         end) la lb
  | VDict da, VDict db =>
      (List.length da =? List.length db)
      && (fix go (da : dict) : bool :=
            match da with
            | [] => true
            | (k, x) :: da' =>
                match lookup k db with
                | Some y => py_eq x y
                | None => false
                end && go da'
            end) da
  | _, _ => false
  end.

(** [a != b] *)
Definition py_ne (a b : value) : bool := negb (py_eq a b).

(** ** [flatten_field] *)

(** The loop of the list branch: [parts] collects the flattened items that
    pass [if flattened and flattened.strip()].  [flat] is the recursive
    call. *)
Section FlattenLoop.

Variable flat : value -> string.

Fixpoint flatten_loop (items : list value) (parts : list string) : list string :=
  match items with
  | [] => parts
  | item :: rest =>
      let flattened := flat item in
      if PyStr.nonblank flattened
      then flatten_loop rest (parts ++ [flattened])
      else flatten_loop rest parts
  end.

End FlattenLoop.

(** What [flatten_field] returns.  It calls itself on the items of a list;
    whether the interpreter's stack is deep enough for that is the matter
    of [flatten_field_within] below. *)
Fixpoint flatten_field (v : value) : string :=
  match v with
  | VNone => EmptyString
  | VStr s => if PyStr.is_empty s then EmptyString else s
  | VList items => PyStr.join " " (flatten_loop flatten_field items [])
  | VDict d => PyStr.join " " (map py_str (filter truthy (map snd d)))
  | other => py_str other
  end.

(** ** The fragment of Python's [re] that the normaliser uses *)

Module Re.

(** Character classes of the six patterns. *)
Inductive cls : Type :=
| Space    (* \s *)
| Digit    (* \d *)
| Upper.   (* [A-Z] *)

(** A pattern is a sequence of atoms; [Open] and [Close] delimit a
    capturing group. *)
Inductive atom : Type :=
| Lit (c : ascii)
| One (k : cls)
| Star (k : cls)      (* greedy k* *)
| Plus (k : cls)      (* greedy k+ *)
| Opt (k : cls)       (* greedy k? *)
| Boundary            (* \b *)
| Open
| Close.

Definition pattern := list atom.

(** The pieces of a replacement template. *)
Inductive piece : Type :=
| Text (s : string)
| Ref (n : nat).       (* \n, groups are numbered from 1 *)

(** [ic] is the flag [re.IGNORECASE]. *)
Definition lit_matches (ic : bool) (c x : ascii) : bool :=
  if ic then Ascii.eqb (PyStr.lower c) (PyStr.lower x) else Ascii.eqb c x.

Definition cls_matches (ic : bool) (k : cls) (x : ascii) : bool :=
  match k with
  | Space => PyStr.isspace x
  | Digit => PyStr.isdigit x
  | Upper => PyStr.isupper_ascii x || (ic && PyStr.islower_ascii x)
  end.

Definition word_before (prev : option ascii) : bool :=
  match prev with Some c => PyStr.isword c | None => false end.

Definition word_after (s : string) : bool :=
  match s with String c _ => PyStr.isword c | EmptyString => false end.

(** [\b] holds between a word character and a non-word character, the
    ends of the text counting as non-word. *)
Definition at_boundary (prev : option ascii) (s : string) : bool :=
  xorb (word_before prev) (word_after s).

(** The matcher's state: the text positions where groups were opened and
    not yet closed, and the groups captured so far, first group first. *)
Record mstate : Type := MState { opened : list string; groups : list string }.

Definition mstart : mstate := MState [] [].

Definition open_group (s : string) (m : mstate) : mstate :=
  MState (s :: opened m) (groups m).

Definition close_group (s : string) (m : mstate) : mstate :=
  match opened m with
  | [] => m
  | s0 :: os =>
      MState os (groups m ++ [PyStr.take (String.length s0 - String.length s) s0])
  end.

(** A continuation receives the character before the current position,
    the rest of the text and the state. *)
Definition cont := option ascii -> string -> mstate -> option (mstate * string).

(** Greedy repetition with backtracking: take as many characters of the
    class as there are, and give one back each time the rest fails. *)
Fixpoint greedy (ic : bool) (k : cls) (next : cont)
    (prev : option ascii) (s : string) (m : mstate) : option (mstate * string) :=
  match s with
  | String x r =>
      if cls_matches ic k x then
        match greedy ic k next (Some x) r m with
        | Some res => Some res
        | None => next prev s m
        end
      else next prev s m
  | EmptyString => next prev s m
  end.

(** Match the pattern at the current position; the result is the final
    state and the text left after the match. *)
Fixpoint match_here (ic : bool) (p : pattern)
    (prev : option ascii) (s : string) (m : mstate) : option (mstate * string) :=
  match p with
  | [] => Some (m, s)
  | Lit c :: p' =>
      match s with
      | String x r => if lit_matches ic c x then match_here ic p' (Some x) r m else None
      | EmptyString => None
      end
  | One k :: p' =>
      match s with
      | String x r => if cls_matches ic k x then match_here ic p' (Some x) r m else None
      | EmptyString => None
      end
  | Star k :: p' => greedy ic k (match_here ic p') prev s m
  | Plus k :: p' =>
      match s with
      | String x r =>
          if cls_matches ic k x then greedy ic k (match_here ic p') (Some x) r m else None
      | EmptyString => None
      end
  | Opt k :: p' =>
      match s with
      | String x r =>
          if cls_matches ic k x then
            match match_here ic p' (Some x) r m with
            | Some res => Some res
            | None => match_here ic p' prev s m
            end
          else match_here ic p' prev s m
      | EmptyString => match_here ic p' prev s m
      end
  | Boundary :: p' => if at_boundary prev s then match_here ic p' prev s m else None
  | Open :: p' => match_here ic p' prev s (open_group s m)
  | Close :: p' => match_here ic p' prev s (close_group s m)
  end.

(** Expansion of the replacement template with the captured groups. *)
Fixpoint expand (repl : list piece) (gs : list string) : string :=
  match repl with
  | [] => EmptyString
  | Text t :: repl' => t +++ expand repl' gs
  | Ref n :: repl' => nth (n - 1) gs EmptyString +++ expand repl' gs
  end.

(** A match that starts here and consumes at least one character: the
    captured groups and the number of characters consumed beyond the
    first.  None of the six patterns can match the empty text. *)
Definition match_at (ic : bool) (p : pattern) (prev : option ascii) (s : string)
  : option (list string * nat) :=
  match match_here ic p prev s mstart with
  | Some (m, rest) =>
      match String.length s - String.length rest with
      | O => None
      | S extra => Some (groups m, extra)
      end
  | None => None
  end.

(** [re.sub(p, repl, s)]: leftmost, non-overlapping matches are replaced.
    [skip] counts the characters of the text that still belong to the
    match replaced last. *)
Fixpoint sub_from (ic : bool) (p : pattern) (repl : list piece)
    (prev : option ascii) (s : string) (skip : nat) : string :=
  match s with
  | EmptyString => EmptyString
  | String c r =>
      match skip with
      | S k => sub_from ic p repl (Some c) r k
      | O =>
          match match_at ic p prev s with
          | Some (gs, extra) => expand repl gs +++ sub_from ic p repl (Some c) r extra
          | None => String c (sub_from ic p repl (Some c) r 0)
          end
      end
  end.

Definition sub (ic : bool) (p : pattern) (repl : list piece) (s : string) : string :=
  sub_from ic p repl None s 0.

(** Does the pattern match somewhere in the text? *)
Fixpoint search_from (ic : bool) (p : pattern) (prev : option ascii) (s : string) : bool :=
  match s with
  | EmptyString => false
  | String c r =>
      match match_at ic p prev s with
      | Some _ => true
      | None => search_from ic p (Some c) r
      end
  end.

Definition search (ic : bool) (p : pattern) (s : string) : bool :=
  search_from ic p None s.

(** The literal atoms of a word. *)
Fixpoint lits (s : string) : pattern :=
  match s with
  | EmptyString => []
  | String c r => Lit c :: lits r
  end.

End Re.

(** ** [SimilarityCaseFinder.normalize_legal_terms] *)

Module Normalizer.
Import Re.

Definition dot : ascii := "."%char.

(** [\b([A-Z])\.\s*([A-Z])\.\s*([A-Z])] *)
Definition initials3 : pattern :=
  [Boundary; Open; One Upper; Close; Lit dot; Star Space;
   Open; One Upper; Close; Lit dot; Star Space; Open; One Upper; Close].

(** [\b([A-Z])\.\s*([A-Z])] *)
Definition initials2 : pattern :=
  [Boundary; Open; One Upper; Close; Lit dot; Star Space; Open; One Upper; Close].

(** [\bSection\s+(\d+[A-Z]?)\b] *)
Definition section_number : pattern :=
  Boundary :: lits "Section" ++ [Plus Space; Open; Plus Digit; Opt Upper; Close; Boundary].

(** [\bIndian Penal Code\b], [\bCode of Criminal Procedure\b] and
    [\bIncome Tax Act\b] *)
Definition phrase (words : string) : pattern :=
  Boundary :: lits words ++ [Boundary].

(** One rewrite: the pattern, whether it ignores case, its replacement. *)
Record rule : Type := Rule { rule_pattern : pattern; rule_ic : bool; rule_repl : list piece }.

Definition rules : list rule :=
  [ Rule initials3 false [Ref 1; Ref 2; Ref 3];
    Rule initials2 false [Ref 1; Ref 2];
    Rule section_number true [Ref 1];
    Rule (phrase "Indian Penal Code") true [Text "IPC"];
    Rule (phrase "Code of Criminal Procedure") true [Text "CrPC"];
    Rule (phrase "Income Tax Act") true [Text "IT Act"] ].

Definition normalize_legal_terms (text : string) : string :=
  if PyStr.is_empty text then EmptyString
  else
    let text := sub false initials3 [Ref 1; Ref 2; Ref 3] text in
    let text := sub false initials2 [Ref 1; Ref 2] text in
    let text := sub true section_number [Ref 1] text in
    let text := sub true (phrase "Indian Penal Code") [Text "IPC"] text in
    let text := sub true (phrase "Code of Criminal Procedure") [Text "CrPC"] text in
    let text := sub true (phrase "Income Tax Act") [Text "IT Act"] text in
    text.

(** Text in which none of the six patterns occurs. *)
Definition no_rule_matches (text : string) : bool :=
  forallb (fun r => negb (search (rule_ic r) (rule_pattern r) text)) rules.

End Normalizer.

(** ** [SimilarityCaseFinder.prepare_text_for_embedding] *)

Module Composer.
Import Normalizer.

Definition Unknown : value := VStr "Unknown".

(** [v not in ['Unknown', 'Unknown legal issue']] *)
Definition not_in_unknowns (v : value) : bool :=
  negb (existsb (py_eq v) [VStr "Unknown"; VStr "Unknown legal issue"]).

(** The body shared by the nine weighted fields:
    [normalized = normalize_legal_terms(flatten_field(v)[:cap])] and, when
    [normalized.strip()] is not empty, [weight] copies of it. *)
Definition chunk (v : value) (cap weight : nat) : list string :=
  let normalized := normalize_legal_terms (PyStr.take cap (flatten_field v)) in
  if negb (PyStr.is_empty (PyStr.strip normalized))
  then repeat normalized weight
  else [].

(** The list [parts] when the function reaches [" ".join(parts)]. *)
Definition compose_parts (case : dict) : list string :=
  let parts := @nil string in
  (* PRIORITY 1: Legal issues (4x weight) *)
  let legal_issues :=
    py_or (dict_get case "legal_issues" (VStr EmptyString))
          (dict_get case "legalissues" (VStr EmptyString)) in
  let parts := if truthy legal_issues
               then parts ++ chunk legal_issues 800 4 else parts in
  (* PRIORITY 2: Primary legal issue (4x weight) *)
  let primary_issue :=
    py_or (dict_get case "primary_legal_issue" (VStr EmptyString))
          (dict_get case "primarylegalissue" (VStr EmptyString)) in
  let parts := if truthy primary_issue && not_in_unknowns primary_issue
               then parts ++ chunk primary_issue 400 4 else parts in
  (* PRIORITY 3: Summary (3x weight) *)
  let summary := dict_get case "summary" (VStr EmptyString) in
  let parts := if truthy summary && py_ne summary Unknown
               then parts ++ chunk summary 1000 3 else parts in
  (* PRIORITY 4: Key legal points (3x weight) *)
  let legal_points :=
    py_or (dict_get case "key_legal_points" (VStr EmptyString))
          (dict_get case "keylegalpoints" (VStr EmptyString)) in
  let parts := if truthy legal_points
               then parts ++ chunk legal_points 800 3 else parts in
  (* PRIORITY 5: Facts (2x weight) *)
  let facts := dict_get case "facts" (VStr EmptyString) in
  let parts := if truthy facts && py_ne facts Unknown
               then parts ++ chunk facts 600 2 else parts in
  (* PRIORITY 6: Judgment reasoning (2x weight) *)
  let reasoning :=
    py_or (dict_get case "judgment_reasoning" (VStr EmptyString))
          (dict_get case "judgmentreasoning" (VStr EmptyString)) in
  let parts := if truthy reasoning && py_ne reasoning Unknown
               then parts ++ chunk reasoning 600 2 else parts in
  (* PRIORITY 7: Acts referred (2x weight) *)
  let acts := dict_get case "acts_referred" (VStr EmptyString) in
  let parts := if truthy acts
               then parts ++ chunk acts 400 2 else parts in
  (* PRIORITY 8: Arguments (1x) *)
  let arguments := dict_get case "arguments" (VStr EmptyString) in
  let parts := if truthy arguments && py_ne arguments Unknown
               then parts ++ chunk arguments 500 1 else parts in
  (* PRIORITY 9: Precedents (1x) *)
  let precedents := dict_get case "precedents_cited" (VStr EmptyString) in
  let parts := if truthy precedents
               then parts ++ chunk precedents 400 1 else parts in
  (* PRIORITY 10: Metadata *)
  let case_type := dict_get case "case_type" (VStr EmptyString) in
  let parts := if truthy case_type && py_ne case_type Unknown
               then parts ++ ["Type: " +++ py_str case_type] else parts in
  let outcome := dict_get case "predicted_outcome" (VStr EmptyString) in
  let parts := if truthy outcome
               then parts ++ ["Outcome: " +++ py_str outcome] else parts in
  let court := dict_get case "court" (VStr EmptyString) in
  let parts := if truthy court
               then parts ++ ["Court: " +++ py_str court] else parts in
  parts.

(** [f"Case {case.get('case_id', 'unknown')} - No extractable text"] *)
Definition placeholder (case : dict) : string :=
  "Case " +++ py_str (dict_get case "case_id" (VStr "unknown"))
          +++ " - No extractable text".

Definition max_chars : nat := 100 * 100.

Definition prepare_text_for_embedding (case : value) : string :=
  match case with
  | VDict [] => "Empty case"                 (* not case *)
  | VDict d =>
      let combined := PyStr.join " " (compose_parts d) in
      let combined :=
        if max_chars <? String.length combined
        then PyStr.take max_chars combined else combined in
      if PyStr.is_empty combined || PyStr.is_empty (PyStr.strip combined)
      then placeholder d
      else combined
  | _ => "Empty case"                        (* falsy, or not a dict *)
  end.

End Composer.

(** ** The collaborators: embedding model, scikit-learn and NumPy *)

Definition vector := list Q.
Definition matrix := list vector.

(** [scores[i]] *)
Definition score_at (scores : list Q) (i : nat) : Q := nth i scores 0%Q.

(** What the program relies on from its libraries.  [encode] is
    [SentenceTransformer.encode] and [cosine_similarity] is scikit-learn's;
    both answer [None] when they raise.  [argsort] is [numpy.argsort]: the
    indices of the array, ordered by ascending value. *)
Class Backend : Type := {
  encode : list string -> option matrix;
  cosine_similarity : matrix -> matrix -> option matrix;
  argsort : list Q -> list nat
}.

(** The contract of [numpy.argsort]: a permutation of the indices that
    puts the values in ascending order.  With the default sort kind the
    order among equal values is not part of the contract. *)
Record argsort_contract (sort : list Q -> list nat) : Prop := {
  argsort_perm : forall scores,
    Permutation (sort scores) (seq 0 (List.length scores));
  argsort_sorted : forall scores,
    StronglySorted (fun i j => (score_at scores i <= score_at scores j)%Q)
                   (sort scores)
}.

(** ** Exceptions and results *)

Inductive exn : Type :=
| ValueError (msg : string)
| IndexError
| AttributeError
| RecursionError        (* no frame left on the interpreter's stack *)
| BackendFailure.       (* whatever a collaborator raised *)

(** The two errors that [find_similar_by_text] raises itself. *)
Definition CacheUnavailable : exn :=
  ValueError "No embeddings available. Please compute embeddings first.".
Definition InvalidQuery : exn := ValueError "Query text cannot be empty".

Inductive result (A : Type) : Type :=
| Ok (a : A)
| Raise (e : exn).
Arguments Ok {A} a.
Arguments Raise {A} e.

Definition rbind {A B : Type} (r : result A) (k : A -> result B) : result B :=
  match r with
  | Ok a => k a
  | Raise e => Raise e
  end.

Fixpoint rmap {A B : Type} (f : A -> result B) (l : list A) : result (list B) :=
  match l with
  | [] => Ok []
  | x :: l' => rbind (f x) (fun y => rbind (rmap f l') (fun ys => Ok (y :: ys)))
  end.

Fixpoint rfilter {A : Type} (f : A -> result bool) (l : list A) : result (list A) :=
  match l with
  | [] => Ok []
  | x :: l' =>
      rbind (f x) (fun keep =>
      rbind (rfilter f l') (fun ys => Ok (if keep then x :: ys else ys)))
  end.

(** ** The state of a [SimilarityCaseFinder] and of its files *)

(** The dict that [save_embeddings] pickles. *)
Record cache_record : Type := CacheRecord {
  cache_embeddings : matrix;
  cache_model_name : string;
  cache_embedding_dim : nat;
  cache_num_cases : nat;
  cache_device : string
}.

(** What the loader finds in the cache file.  [Pickled]: the file
    unpickles to a dict whose ['embeddings'] entry is an array, as
    [save_embeddings] writes it.  [Unreadable]: [open] or [pickle.load]
    raises, or the object has no ['embeddings'] entry, so that the
    assignment to [self.embeddings] is not reached.  A file whose
    ['embeddings'] entry is something else than an array (it would be
    assigned, and the print of its shape would raise) is not among the
    files of this model. *)
Inductive pickled : Type :=
| Pickled (r : cache_record)
| Unreadable.

Record world : Type := World {
  cases : list value;                     (* self.cases *)
  embeddings : option matrix;             (* self.embeddings *)
  device : string;                        (* self.device *)
  judgments_file : option (list value);   (* the corpus file, when it parses *)
  cache_file : option pickled;            (* the cache file, when it exists *)
  disk_writable : bool;                   (* can the cache file be opened for writing? *)
  encoded : list (list string)            (* the calls made to [encode] *)
}.

Definition set_cases (cs : list value) (w : world) : world :=
  World cs (embeddings w) (device w) (judgments_file w) (cache_file w)
        (disk_writable w) (encoded w).

Definition set_embeddings (e : option matrix) (w : world) : world :=
  World (cases w) e (device w) (judgments_file w) (cache_file w)
        (disk_writable w) (encoded w).

Definition set_cache_file (f : option pickled) (w : world) : world :=
  World (cases w) (embeddings w) (device w) (judgments_file w) f
        (disk_writable w) (encoded w).

Definition log_encode (texts : list string) (w : world) : world :=
  World (cases w) (embeddings w) (device w) (judgments_file w) (cache_file w)
        (disk_writable w) (encoded w ++ [texts]).

(** A method: it reads and writes the state and returns or raises.  What
    was written before an exception stays written. *)
Definition M (A : Type) : Type := world -> result A * world.

Definition ret {A : Type} (a : A) : M A := fun w => (Ok a, w).
Definition raise {A : Type} (e : exn) : M A := fun w => (Raise e, w).

Definition bind {A B : Type} (m : M A) (k : A -> M B) : M B :=
  fun w =>
    match m w with
    | (Ok a, w') => k a w'
    | (Raise e, w') => (Raise e, w')
    end.

(** [try: m  except Exception as e: handler e] *)
Definition try_except {A : Type} (m : M A) (handler : exn -> M A) : M A :=
  fun w =>
    match m w with
    | (Ok a, w') => (Ok a, w')
    | (Raise e, w') => handler e w'
    end.

Definition lift {A : Type} (r : result A) : M A := fun w => (r, w).
Definition get : M world := fun w => (Ok w, w).
Definition modify (f : world -> world) : M unit := fun w => (Ok tt, f w).

Declare Scope method_scope.
Delimit Scope method_scope with method.
Notation "x <- m ;; k" := (bind m (fun x => k))
  (at level 61, m at next level, right associativity) : method_scope.
Notation "m ;; k" := (bind m (fun _ => k))
  (at level 61, right associativity) : method_scope.
Local Open Scope method_scope.

(** ** [SimilarityCaseFinder] *)

(** [l[:k]]: a negative [k] counts from the end. *)
Definition slice_to {A : Type} (k : Z) (l : list A) : list A :=
  if (0 <=? k)%Z then firstn (Z.to_nat k) l
  else firstn (List.length l - Z.to_nat (- k)) l.

(** [l[idx]] *)
Definition item {A : Type} (l : list A) (idx : nat) : result A :=
  match nth_error l idx with
  | Some x => Ok x
  | None => Raise IndexError
  end.

(** [case.get('case_id')], which needs a dict. *)
Definition get_case_id (case : value) : result value :=
  match case with
  | VDict d => Ok (dict_get d "case_id" VNone)
  | _ => Raise AttributeError
  end.

(** The model name that [save_embeddings] writes. *)
Definition saved_model_name : string := "jinaai/jina-embeddings-v2-base-en".

Section Finder.

Context {B : Backend}.

(** [self.model.encode(texts, ...)] *)
Definition model_encode (texts : list string) : M matrix :=
  fun w =>
    match encode texts with
    | Some m => (Ok m, log_encode texts w)
    | None => (Raise BackendFailure, log_encode texts w)
    end.

(** [cosine_similarity(query_embedding, self.embeddings)[0]] *)
Definition similarities_of (query_embedding stored : matrix) : result (list Q) :=
  match cosine_similarity query_embedding stored with
  | Some (row :: _) => Ok row
  | Some [] => Raise IndexError
  | None => Raise BackendFailure
  end.

Definition load_cases : M unit :=
  fun w =>
    match judgments_file w with
    | Some cs => (Ok tt, set_cases cs w)
    | None => (Ok tt, set_cases [] w)
    end.

Definition compute_embeddings : M unit :=
  try_except
    (w <- get ;;
     match cases w with
     | [] => ret tt                                   (* No cases to embed *)
     | _ =>
         let texts := map Composer.prepare_text_for_embedding (cases w) in
         let texts :=
           map (fun t => if PyStr.nonblank t then t else "Empty case") texts in
         m <- model_encode texts ;;
         modify (set_embeddings (Some m))
     end)
    (fun e => modify (set_embeddings None) ;; raise e).

(** [disk_writable] tells whether [os.makedirs] and [open(..., 'wb')]
    succeed; when they raise, the handler prints and the file is as it was.
    Once the file is open the dump is taken to complete: a write that
    breaks off half-way, which would leave a truncated file, is not
    modelled. *)
Definition save_embeddings : M unit :=
  w <- get ;;
  match embeddings w with
  | None => ret tt
  | Some m =>
      if disk_writable w then
        modify (set_cache_file
                  (Some (Pickled (CacheRecord m saved_model_name
                                    (List.length (hd [] m))
                                    (List.length (cases w))
                                    (device w)))))
      else ret tt                                     (* Failed to save: not opened *)
  end.

Definition load_or_compute_embeddings : M unit :=
  w <- get ;;
  match cache_file w with
  | Some (Pickled cache) => modify (set_embeddings (Some (cache_embeddings cache)))
  | Some Unreadable                                   (* Failed to load cache *)
  | None =>                                           (* No cache found *)
      compute_embeddings ;; save_embeddings
  end.

(** [__init__]: the model named [model_name] is the [Backend]; the name is
    used for nothing else. *)
Definition init (model_name : string) : M unit :=
  load_cases ;; load_or_compute_embeddings.

(** [np.argsort(similarities)[::-1]] *)
Definition descending (similarities : list Q) : list nat := rev (argsort similarities).

(** [[idx for idx in top_indices if self.cases[idx].get('case_id') != query_id]] *)
Definition exclude (cs : list value) (query_id : value) (top_indices : list nat)
  : result (list nat) :=
  rfilter (fun idx =>
             rbind (item cs idx) (fun c =>
             rbind (get_case_id c) (fun cid => Ok (py_ne cid query_id))))
          top_indices.

(** [[(self.cases[idx], float(similarities[idx])) for idx in top_indices]] *)
Definition collect (cs : list value) (similarities : list Q) (top_indices : list nat)
  : result (list (value * Q)) :=
  rmap (fun idx =>
          rbind (item cs idx) (fun c =>
          rbind (item similarities idx) (fun s => Ok (c, s))))
       top_indices.

Definition find_similar (query_case : value) (topk : Z) (exclude_self : bool)
  : M (list (value * Q)) :=
  try_except
    (w <- get ;;
     match embeddings w with
     | None => ret []                                 (* No embeddings available *)
     | Some stored =>
         let query_text := Composer.prepare_text_for_embedding query_case in
         query_embedding <- model_encode [query_text] ;;
         similarities <- lift (similarities_of query_embedding stored) ;;
         let top_indices := descending similarities in
         top_indices <-
           (if exclude_self then
              query_id <- lift (get_case_id query_case) ;;
              lift (exclude (cases w) query_id top_indices)
            else ret top_indices) ;;
         let top_indices := slice_to topk top_indices in
         lift (collect (cases w) similarities top_indices)
     end)
    (fun _ => ret []).

Definition find_similar_by_text (query_text : string) (topk : Z)
  : M (list (value * Q)) :=
  try_except
    (w <- get ;;
     match embeddings w with
     | None => raise CacheUnavailable
     | Some stored =>
         if PyStr.is_empty query_text || PyStr.is_empty (PyStr.strip query_text)
         then raise InvalidQuery
         else
           let normalized_query := Normalizer.normalize_legal_terms query_text in
           query_embedding <- model_encode [normalized_query] ;;
           similarities <- lift (similarities_of query_embedding stored) ;;
           let top_indices := slice_to topk (descending similarities) in
           lift (collect (cases w) similarities top_indices)
     end)
    (fun e => raise e).

End Finder.

(** ** A concrete backend, for running the model

    One [argsort] that keeps the contract: the insertion sort that the
    portable implementation of NumPy's default kind applies to short
    arrays, which leaves equal values in index order.  The toy embedding
    model places a text on one of two axes, and [cosine_similarity] of
    unit vectors is their dot product. *)

Module Toy.

Fixpoint insert (scores : list Q) (i : nat) (sorted : list nat) : list nat :=
  match sorted with
  | [] => [i]
  | j :: rest =>
      if Qle_bool (score_at scores i) (score_at scores j)
      then i :: sorted
      else j :: insert scores i rest
  end.

Fixpoint isort (scores : list Q) (idxs : list nat) : list nat :=
  match idxs with
  | [] => []
  | i :: rest => insert scores i (isort scores rest)
  end.

Definition np_argsort (scores : list Q) : list nat :=
  isort scores (seq 0 (List.length scores)).

Fixpoint dot (u v : vector) : option Q :=
  match u, v with
  | [], [] => Some 0%Q
  | x :: u', y :: v' =>
      match dot u' v' with
      | Some d => Some (Qred (x * y + d))
      | None => None
      end
  | _, _ => None
  end.

Fixpoint dots (u : vector) (rows : matrix) : option (list Q) :=
  match rows with
  | [] => Some []
  | v :: rows' =>
      match dot u v, dots u rows' with
      | Some d, Some ds => Some (d :: ds)
      | _, _ => None
      end
  end.

Fixpoint all_dots (X Y : matrix) : option matrix :=
  match X with
  | [] => Some []
  | u :: X' =>
      match dots u Y, all_dots X' Y with
      | Some r, Some rs => Some (r :: rs)
      | _, _ => None
      end
  end.

(** scikit-learn rejects an array without rows. *)
Definition unit_cosine (X Y : matrix) : option matrix :=
  match X, Y with
  | [], _ | _, [] => None
  | _, _ => all_dots X Y
  end.

Definition axis (text : string) : vector :=
  match text with
  | String "m" _ => [1; 0]%Q
  | _ => [0; 1]%Q
  end.

Definition toy_encode (texts : list string) : option matrix :=
  Some (map axis texts).

Definition backend : Backend := {|
  encode := toy_encode;
  cosine_similarity := unit_cosine;
  argsort := np_argsort
|}.

End Toy.

(** ** Inputs used in the statements below *)

(** A text of [n] copies of one character. *)
Fixpoint copies (n : nat) (c : ascii) : string :=
  match n with
  | O => EmptyString
  | S k => String c (copies k c)
  end.

(** What [load_cases] reads, and the texts that [compute_embeddings] hands
    to the model. *)
Definition loaded_corpus (w : world) : list value :=
  match judgments_file w with
  | Some cs => cs
  | None => []
  end.

Definition texts_to_embed (cs : list value) : list string :=
  map (fun t => if PyStr.nonblank t then t else "Empty case")
      (map Composer.prepare_text_for_embedding cs).

(** The corpus of the specification's scenario, and worlds around it. *)
Module Scenario.

Definition case_A : value :=
  VDict [("case_id", VStr "A"); ("summary", VStr "murder case IPC 302")].
Definition case_B : value :=
  VDict [("case_id", VStr "B"); ("summary", VStr "murder case IPC 302")].
Definition case_C : value :=
  VDict [("case_id", VStr "C"); ("summary", VStr "unrelated tax dispute")].

Definition corpus : list value := [case_A; case_B; case_C].

(** A case with an identifier and no usable text. *)
Definition case_without_text : dict :=
  [("case_id", VStr "A"); ("summary", VStr "Unknown")].

(** A case whose type, outcome and court are all the sentinel. *)
Definition case_of_unknowns : dict :=
  [("case_id", VStr "A"); ("case_type", VStr "Unknown");
   ("predicted_outcome", VStr "Unknown"); ("court", VStr "Unknown")].

(** One case written with its entries in two orders. *)
Definition summary_then_court : dict :=
  [("summary", VStr "murder under Section 302"); ("court", VStr "Delhi High Court")].
Definition court_then_summary : dict :=
  [("court", VStr "Delhi High Court"); ("summary", VStr "murder under Section 302")].

(** A process that has not run [__init__] yet. *)
Definition before_init (corpus_file : option (list value)) (cache : option pickled) : world :=
  World [] None "cpu" corpus_file cache true [].

(** A finder with the corpus loaded and the given matrix in memory. *)
Definition ready (e : option matrix) : world :=
  World corpus e "cpu" (Some corpus) None true [].

(** A cache written for another model when the corpus had one case. *)
Definition stale_cache : cache_record :=
  CacheRecord [[1; 0]%Q] "all-MiniLM-L6-v2" 2 1 "cpu".

Definition configured_model : string := "jinaai/jina-embeddings-v2-base-en".

End Scenario.

(** ** The orders that rankings are compared with *)

(** Scores never increase along the result. *)
Definition descending_scores (results : list (value * Q)) : Prop :=
  StronglySorted (fun a b => (snd b <= snd a)%Q) results.

(** Two results with equal scores come in the order of the corpus. *)
Definition ties_in_corpus_order (corpus : list value) (results : list (value * Q)) : Prop :=
  forall i j ci si cj sj,
    nth_error results i = Some (ci, si) ->
    nth_error results j = Some (cj, sj) ->
    i < j -> (si == sj)%Q ->
    exists a b, nth_error corpus a = Some ci /\ nth_error corpus b = Some cj /\ a < b.

(** The pairs that a ranking builds from a list of corpus indices. *)
Definition ranked (cs : list value) (similarities : list Q) (idxs : list nat)
  : list (value * Q) :=
  map (fun idx => (nth idx cs VNone, score_at similarities idx)) idxs.

(** A result whose case is a mapping with a [case_id] other than [query_id]
    (a missing [case_id] reads as [None]). *)
Definition has_other_id (query_id : value) (r : value * Q) : Prop :=
  exists d, fst r = VDict d /\ py_eq (dict_get d "case_id" VNone) query_id = false.

(** ** Measures on matches *)

Module ReMeasure.
Import Re.

(** The least number of characters a match of the pattern consumes. *)
Fixpoint min_len (p : pattern) : nat :=
  match p with
  | [] => 0
  | (Lit _ | One _ | Plus _) :: p' => S (min_len p')
  | _ :: p' => min_len p'
  end.

(** No group opens inside another; [inside] tells whether one is open. *)
Fixpoint flat (inside : bool) (p : pattern) : bool :=
  match p with
  | [] => true
  | Open :: p' => negb inside && flat true p'
  | Close :: p' => inside && flat false p'
  | _ :: p' => flat inside p'
  end.

Fixpoint total_len (gs : list string) : nat :=
  match gs with
  | [] => 0
  | g :: gs' => String.length g + total_len gs'
  end.

(** The characters read since the open group started. *)
Definition open_span (s : string) (m : mstate) : nat :=
  match opened m with
  | [] => 0
  | s0 :: _ => String.length s0 - String.length s
  end.

(** The characters still to read plus those already given to groups. *)
Definition weight (s : string) (m : mstate) : nat :=
  total_len (groups m) + open_span s m + String.length s.

(** The least number of characters a match consumes outside its groups. *)
Fixpoint min_outside (inside : bool) (p : pattern) : nat :=
  match p with
  | [] => 0
  | Open :: p' => min_outside true p'
  | Close :: p' => min_outside false p'
  | (Lit _ | One _ | Plus _) :: p' =>
      (if inside then 0 else 1) + min_outside inside p'
  | _ :: p' => min_outside inside p'
  end.

End ReMeasure.

(** A rewrite whose replacement is never longer than the text matched. *)
Definition shrinks (ic : bool) (p : Re.pattern) (repl : list Re.piece) : Prop :=
  forall prev s gs extra,
    Re.match_at ic p prev s = Some (gs, extra) ->
    String.length (Re.expand repl gs) <= S extra.

(** A rewrite whose replacement is shorter than the text matched. *)
Definition shortens (ic : bool) (p : Re.pattern) (repl : list Re.piece) : Prop :=
  forall prev s gs extra,
    Re.match_at ic p prev s = Some (gs, extra) ->
    String.length (Re.expand repl gs) <= extra.

(** [normalize_legal_terms] applied [n] times in a row. *)
Definition renormalize (n : nat) (text : string) : string :=
  Nat.iter n Normalizer.normalize_legal_terms text.

(** A chunk that still shows after the cut to [max_chars]. *)
Definition shows (part : string) : Prop :=
  PyStr.all_space (PyStr.take Composer.max_chars part) = false.

(** ** A new finder and its callers *)

(** The first assignments of [__init__]: [self.cases = []] and
    [self.embeddings = None]. *)
Definition blank_finder (w : world) : world :=
  set_embeddings None (set_cases [] w).

Section Construction.

Context {B : Backend}.

(** [SimilarityCaseFinder(...)]: a new object, then the rest of
    [__init__].  The device is the one the state holds, and the loaded
    model is the [Backend]. *)
Definition new_finder (model_name : string) : M unit :=
  modify blank_finder ;; init model_name.

End Construction.

(** Two states with the same finder and the same files; they may differ in
    the record of the calls made to the model. *)
Definition same_finder_and_files (w w' : world) : Prop :=
  cases w' = cases w
  /\ embeddings w' = embeddings w
  /\ device w' = device w
  /\ judgments_file w' = judgments_file w
  /\ cache_file w' = cache_file w
  /\ disk_writable w' = disk_writable w.

(** The length of [l[:k]] for a list of [n] items. *)
Definition slice_length (k : Z) (n : nat) : nat :=
  if (0 <=? k)%Z then Nat.min (Z.to_nat k) n else n - Z.to_nat (- k).

Section Drawn.

Context {B : Backend}.

(** A ranking drawn for [text]: its scores are the row that
    [cosine_similarity] returns for the model's vector of [text] against
    the stored matrix, and its results are the cases and the scores of that
    row at pairwise distinct positions, inside the corpus and inside the
    row, no more of them than the slice allows. *)
Definition drawn (w : world) (text : string) (topk : Z)
    (results : list (value * Q)) : Prop :=
  exists stored qe sims rest idxs,
    embeddings w = Some stored
    /\ encode [text] = Some qe
    /\ cosine_similarity qe stored = Some (sims :: rest)
    /\ results = ranked (cases w) sims idxs
    /\ NoDup idxs
    /\ Forall (fun idx => idx < List.length (cases w) /\ idx < List.length sims) idxs
    /\ List.length idxs <= slice_length topk (List.length sims).

End Drawn.

(** ** Where the first group of a pattern starts *)

Module ReShape.
Import Re.

(** How far a match has come: before the first group, at its opening, in
    it, after it. *)
Inductive phase : Type := Before | Opening | Within | After.

(** The first group of the pattern opens on a digit or a letter. *)
Fixpoint opens_visibly (ph : phase) (p : pattern) : bool :=
  match p with
  | [] => match ph with After => true | _ => false end
  | a :: p' =>
      match ph, a with
      | Before, Open => opens_visibly Opening p'
      | Before, Close => false
      | Before, _ => opens_visibly Before p'
      | Opening, (One Digit | One Upper | Plus Digit | Plus Upper) =>
          opens_visibly Within p'
      | Opening, _ => false
      | Within, Close => opens_visibly After p'
      | Within, Open => false
      | Within, _ => opens_visibly Within p'
      | After, _ => opens_visibly After p'
      end
  end.

(** A list of groups whose first one starts with a visible character. *)
Definition head_visible (gs : list string) : Prop :=
  exists x g more, gs = String x g :: more /\ PyStr.isspace x = false.

(** What is known of the matcher's state in each phase. *)
Definition state_in (ph : phase) (s : string) (m : mstate) : Prop :=
  match ph with
  | Before => opened m = [] /\ groups m = []
  | Opening => opened m = [s] /\ groups m = []
  | Within =>
      exists x r0,
        opened m = [String x r0] /\ PyStr.isspace x = false
        /\ groups m = [] /\ String.length s <= String.length r0
  | After => head_visible (groups m)
  end.

End ReShape.

(** A rewrite whose replacement always has a visible character. *)
Definition replaces_visibly (ic : bool) (p : Re.pattern) (repl : list Re.piece) : Prop :=
  forall prev s gs extra,
    Re.match_at ic p prev s = Some (gs, extra) ->
    PyStr.all_space (Re.expand repl gs) = false.

(** [s[n:]] *)
Fixpoint drop (n : nat) (s : string) : string :=
  match n, s with
  | S k, String _ r => drop k r
  | _, _ => s
  end.

(** Every text that was handed to the model had a visible character. *)
Definition only_visible_texts (w : world) : Prop :=
  Forall (Forall (fun t => PyStr.all_space t = false)) (encoded w).

(** ** The similarity route of the API *)

Module Api.

(** The body of a request as the route reads it: what it finds under
    ['query_text'] and ['top_k'], [None] standing for a key that is absent.
    The model covers the bodies in which the first, when present, is a
    string and the second, when present, an integer: a ['top_k'] of JSON
    [null], which [data.get] hands on as [None] and the slice reads as no
    cut at all, or of any other type, is not among the requests of this
    model, and neither is a body that makes [get_json] raise.  [None] as a
    body is what [request.get_json() or {}] turns into [{}]. *)
Record body : Type := Body { query_text : option string; top_k : option Z }.

Inductive response : Type :=
| Results (results : list (value * Q)) (count : nat)   (* 200 *)
| Refused (status : nat) (error : string)              (* 404 and 400 *)
| Failed (e : exn).                                    (* 500, with str(e) *)

Definition default_model : string := "jinaai/jina-embeddings-v2-base-en".

Section Routes.

Context {B : Backend}.

(** [get_similarity_engine()]; [corpus_exists] is
    [os.path.exists(JUDGMENTS_FILE)].  The answer tells whether there is
    an engine. *)
Definition get_similarity_engine (corpus_exists : bool) : M bool :=
  if corpus_exists
  then new_finder default_model ;; ret true
  else ret false.

(** [find_similar_cases()], the handler of [POST /api/similarity]. *)
Definition find_similar_cases (corpus_exists : bool) (request : option body)
  : world -> response * world :=
  fun w =>
    match get_similarity_engine corpus_exists w with
    | (Raise e, w1) => (Failed e, w1)
    | (Ok false, w1) => (Refused 404 "No data available", w1)
    | (Ok true, w1) =>
        let data := match request with Some b => b | None => Body None None end in
        let query := match query_text data with Some s => s | None => EmptyString end in
        let k := match top_k data with Some z => z | None => 5%Z end in
        if PyStr.is_empty query
        then (Refused 400 "query_text is required", w1)
        else
          match find_similar_by_text query k w1 with
          | (Ok results, w2) => (Results results (List.length results), w2)
          | (Raise e, w2) => (Failed e, w2)
          end
    end.

End Routes.

End Api.

(** ** More inputs for the statements below *)

Module Scenario2.

(** A model that is out of memory whatever it is given. *)
Definition broken_backend : Backend := {|
  encode := fun _ => None;
  cosine_similarity := Toy.unit_cosine;
  argsort := Toy.np_argsort
|}.

(** The vectors of the three cases of the scenario under the toy model. *)
Definition corpus_matrix : matrix := [[1; 0]; [1; 0]; [0; 1]]%Q.

(** The same with a fourth row, as for a corpus that lost a case. *)
Definition longer_matrix : matrix := [[1; 0]; [1; 0]; [0; 1]; [0; 1]]%Q.

(** A first start: the corpus is on disk and there is no cache. *)
Definition first_start : world :=
  Scenario.before_init (Some Scenario.corpus) None.

(** A start without a corpus file. *)
Definition no_corpus : world := Scenario.before_init None None.

End Scenario2.

(** ** Cases seen from the ranker *)

Definition is_dict (c : value) : bool :=
  match c with VDict _ => true | _ => false end.

(** [case.get('case_id')] of a case that is a mapping. *)
Definition case_id_of (c : value) : value :=
  match c with VDict d => dict_get d "case_id" VNone | _ => VNone end.

(** The cases that self-exclusion keeps for a query with this id. *)
Definition others (query_id : value) (cs : list value) : list value :=
  filter (fun c => py_ne (case_id_of c) query_id) cs.

(** ** [flatten_field] and the depth of the interpreter's stack *)


(** The loop of the list branch when the recursive call can raise. *)
Section FlattenLoopWithin.

Variable flat : value -> result string.


End FlattenLoopWithin.




(** The keys of a case that the composer reads. *)
Definition composer_keys : list string :=
  ["legal_issues"; "legalissues"; "primary_legal_issue"; "primarylegalissue";
   "summary"; "key_legal_points"; "keylegalpoints"; "facts";
   "judgment_reasoning"; "judgmentreasoning"; "acts_referred"; "arguments";
   "precedents_cited"; "case_type"; "predicted_outcome"; "court"; "case_id"].

(** * Properties *)

(** ** Strings *)

Lemma lstrip_all_space (s : string) :
  PyStr.all_space s = true -> PyStr.lstrip s = EmptyString.
Proof.
  induction s as [|c r IH]; simpl; [reflexivity|].
  destruct (PyStr.isspace c); simpl; [exact IH|discriminate].
Qed.

Lemma lstrip_not_all_space (s : string) :
  PyStr.all_space s = false ->
  exists c r, PyStr.lstrip s = String c r /\ PyStr.isspace c = false.
Proof.
  induction s as [|c r IH]; simpl; [discriminate|].
  destruct (PyStr.isspace c) eqn:Hc; simpl.
  - exact IH.
  - intros _. exists c, r. split; [reflexivity|exact Hc].
Qed.

Lemma strip_empty_iff_all_space (s : string) :
  PyStr.is_empty (PyStr.strip s) = PyStr.all_space s.
Proof.
  unfold PyStr.strip.
  destruct (PyStr.all_space s) eqn:Hs.
  - rewrite (lstrip_all_space s Hs). reflexivity.
  - destruct (lstrip_not_all_space s Hs) as (c & r & -> & Hc).
    simpl. rewrite Hc. reflexivity.
Qed.

Lemma nonblank_spec (s : string) :
  PyStr.nonblank s = negb (PyStr.all_space s).
Proof.
  unfold PyStr.nonblank. rewrite strip_empty_iff_all_space.
  destruct s; reflexivity.
Qed.

Lemma take_length (n : nat) (s : string) :
  String.length (PyStr.take n s) <= n.
Proof.
  revert s. induction n as [|n IH]; intros [|c r]; simpl; try lia.
  specialize (IH r). lia.
Qed.

(** ** [flatten_field] *)











(** ** The composer *)

Lemma take_all (n : nat) (s : string) :
  String.length s <= n -> PyStr.take n s = s.
Proof.
  revert s. induction n as [|n IH]; intros [|c r]; simpl; intros H;
    try reflexivity; try lia.
  f_equal. apply IH. lia.
Qed.

Lemma take_all_space (n : nat) (s : string) :
  PyStr.all_space s = true -> PyStr.all_space (PyStr.take n s) = true.
Proof.
  revert s. induction n as [|n IH]; intros [|c r]; simpl; try reflexivity.
  intros H. apply andb_true_iff in H as [Hc Hr].
  rewrite Hc. simpl. now apply IH.
Qed.

Lemma is_empty_all_space (s : string) :
  PyStr.is_empty s = true -> PyStr.all_space s = true.
Proof. destruct s; [reflexivity|discriminate]. Qed.

(** The composite before the blank test: the joined chunks, cut to
    [max_chars] characters. *)
Lemma truncation_is_take (combined : string) :
  (if Composer.max_chars <? String.length combined
   then PyStr.take Composer.max_chars combined else combined)
  = PyStr.take Composer.max_chars combined.
Proof.
  destruct (Composer.max_chars <? String.length combined) eqn:H; [reflexivity|].
  apply Nat.ltb_ge in H. symmetry. now apply take_all.
Qed.

Lemma prepare_text_nonempty_dict (e : string * value) (d : dict) :
  Composer.prepare_text_for_embedding (VDict (e :: d))
  = if PyStr.all_space
         (PyStr.take Composer.max_chars
            (PyStr.join " " (Composer.compose_parts (e :: d))))
    then Composer.placeholder (e :: d)
    else PyStr.take Composer.max_chars
           (PyStr.join " " (Composer.compose_parts (e :: d))).
Proof.
  unfold Composer.prepare_text_for_embedding.
  generalize (PyStr.join " " (Composer.compose_parts (e :: d))) as combined.
  intros combined. cbv zeta. rewrite truncation_is_take.
  generalize (PyStr.take Composer.max_chars combined) as cut. intros cut.
  rewrite strip_empty_iff_all_space.
  destruct cut as [|c r]; [reflexivity|].
  cbn [PyStr.is_empty orb]. reflexivity.
Qed.

(** ** A rewrite never lengthens the text *)

Section MatchMeasures.

Import Re ReMeasure.

Variable ic : bool.

(** A property of a match that survives reading one more character before
    it also holds of every greedy repetition. *)
Lemma greedy_inv (Q : string -> mstate -> mstate * string -> Prop)
    (k : cls) (next : cont) :
  (forall prev s m res, next prev s m = Some res -> Q s m res) ->
  (forall x r m res, Q r m res -> Q (String x r) m res) ->
  forall s prev m res, greedy ic k next prev s m = Some res -> Q s m res.
Proof.
  intros Hnext Hstep. induction s as [|x r IH]; intros prev m res; simpl.
  - apply Hnext.
  - destruct (cls_matches ic k x); [|apply Hnext].
    destruct (greedy ic k next (Some x) r m) as [res'|] eqn:Hg.
    + intros E. injection E as <-. apply Hstep. now apply (IH (Some x)).
    + apply Hnext.
Qed.

Lemma match_here_consumes (p : pattern) :
  forall prev s m m' rest,
    match_here ic p prev s m = Some (m', rest) ->
    String.length rest + min_len p <= String.length s.
Proof.
  induction p as [|a p IH]; intros prev s m m' rest H.
  - simpl in H. injection H as _ <-. simpl. lia.
  - destruct a; simpl in H.
    + destruct s as [|x r]; [discriminate|].
      destruct (lit_matches ic c x); [|discriminate].
      apply IH in H. simpl. lia.
    + destruct s as [|x r]; [discriminate|].
      destruct (cls_matches ic k x); [|discriminate].
      apply IH in H. simpl. lia.
    + revert H.
      apply (greedy_inv
               (fun s _ res => String.length (snd res) + min_len p <= String.length s)).
      * intros prev' s' m0 [m1 rest'] H. now apply IH in H.
      * intros x r _ res Hq. simpl. lia.
    + destruct s as [|x r]; [discriminate|].
      destruct (cls_matches ic k x); [|discriminate].
      revert H.
      apply (greedy_inv
               (fun s _ res => String.length (snd res) + S (min_len p)
                               <= S (String.length s))).
      * intros prev' s' m0 [m1 rest'] H. apply IH in H. simpl. lia.
      * intros y r' _ res Hq. simpl. lia.
    + destruct s as [|x r]; [now apply IH in H|].
      destruct (cls_matches ic k x); [|now apply IH in H].
      destruct (match_here ic p (Some x) r m) as [res|] eqn:Hm.
      * injection H as ->. apply IH in Hm. simpl. lia.
      * now apply IH in H.
    + destruct (at_boundary prev s); [|discriminate]. now apply IH in H.
    + now apply IH in H.
    + now apply IH in H.
Qed.

Lemma weight_step (x : ascii) (r : string) (m : mstate) :
  weight r m <= weight (String x r) m.
Proof.
  unfold weight, open_span. destruct (opened m); simpl; lia.
Qed.

Lemma match_here_weight (p : pattern) :
  forall inside prev s m m' rest,
    flat inside p = true ->
    List.length (opened m) = (if inside then 1 else 0) ->
    match_here ic p prev s m = Some (m', rest) ->
    weight rest m' <= weight s m.
Proof.
  induction p as [|a p IH]; intros inside prev s m m' rest Hflat Hopen H.
  - simpl in H. injection H as <- <-. lia.
  - destruct a; simpl in H, Hflat.
    + destruct s as [|x r]; [discriminate|].
      destruct (lit_matches ic c x); [|discriminate].
      apply (IH inside) in H; auto. pose proof (weight_step x r m). lia.
    + destruct s as [|x r]; [discriminate|].
      destruct (cls_matches ic k x); [|discriminate].
      apply (IH inside) in H; auto. pose proof (weight_step x r m). lia.
    + assert (G := greedy_inv
                (fun s m0 res => List.length (opened m0) = (if inside then 1 else 0) ->
                                 weight (snd res) (fst res) <= weight s m0)
                k (match_here ic p)).
      refine (G _ _ s prev m (m', rest) H Hopen).
      * intros prev' s' m0 [m1 rest'] Hm Ho. now apply (IH inside) in Hm.
      * intros x r m0 res Hq Ho. pose proof (weight_step x r m0).
        specialize (Hq Ho). lia.
    + destruct s as [|x r]; [discriminate|].
      destruct (cls_matches ic k x); [|discriminate].
      assert (G := greedy_inv
                (fun s m0 res => List.length (opened m0) = (if inside then 1 else 0) ->
                                 weight (snd res) (fst res) <= weight s m0)
                k (match_here ic p)).
      assert (Hw : weight rest m' <= weight r m).
      { refine (G _ _ r (Some x) m (m', rest) H Hopen).
        - intros prev' s' m0 [m1 rest'] Hm Ho. now apply (IH inside) in Hm.
        - intros y r' m0 res Hq Ho. pose proof (weight_step y r' m0).
          specialize (Hq Ho). lia. }
      pose proof (weight_step x r m). lia.
    + destruct s as [|x r]; [now apply (IH inside) in H|].
      destruct (cls_matches ic k x); [|now apply (IH inside) in H].
      destruct (match_here ic p (Some x) r m) as [res|] eqn:Hm.
      * injection H as ->. apply (IH inside) in Hm; auto.
        pose proof (weight_step x r m). lia.
      * now apply (IH inside) in H.
    + destruct (at_boundary prev s); [|discriminate]. now apply (IH inside) in H.
    + apply andb_true_iff in Hflat as [Hin Hflat].
      destruct inside; [discriminate|].
      apply (IH true) in H; auto.
      * destruct (opened m) eqn:Ho; [|discriminate].
        revert H. unfold weight, open_span, open_group. simpl. rewrite Ho. simpl. lia.
      * unfold open_group. simpl. now rewrite Hopen.
    + apply andb_true_iff in Hflat as [Hin Hflat].
      destruct inside; [|discriminate].
      destruct (opened m) as [|s0 [|s1 os]] eqn:Ho; try discriminate.
      apply (IH false) in H; auto.
      * revert H. unfold weight, open_span, close_group. rewrite Ho. simpl.
        pose proof (take_length (String.length s0 - String.length s) s0).
        assert (Ht : forall gs g, total_len (gs ++ [g]) = total_len gs + String.length g).
        { induction gs as [|g0 gs IHg]; intros g; simpl; [lia|]. rewrite IHg. lia. }
        rewrite Ht. lia.
      * unfold close_group. rewrite Ho. reflexivity.
Qed.

Lemma weight_step_outside (inside : bool) (x : ascii) (r : string) (m : mstate) :
  List.length (opened m) = (if inside then 1 else 0) ->
  weight r m + (if inside then 0 else 1) <= weight (String x r) m.
Proof.
  intros Hopen. destruct inside.
  - pose proof (weight_step x r m). lia.
  - destruct (opened m) eqn:Ho; [|discriminate].
    unfold weight, open_span. rewrite Ho. simpl. lia.
Qed.

(** The characters matched outside the groups are consumed and given to no
    group. *)
Lemma match_here_outside (p : pattern) :
  forall inside prev s m m' rest,
    flat inside p = true ->
    List.length (opened m) = (if inside then 1 else 0) ->
    match_here ic p prev s m = Some (m', rest) ->
    weight rest m' + min_outside inside p <= weight s m.
Proof.
  induction p as [|a p IH]; intros inside prev s m m' rest Hflat Hopen H.
  - simpl in H. injection H as <- <-. simpl. lia.
  - destruct a; simpl in H, Hflat; cbn [min_outside].
    + destruct s as [|x r]; [discriminate|].
      destruct (lit_matches ic c x); [|discriminate].
      apply (IH inside) in H; auto.
      pose proof (weight_step_outside inside x r m Hopen). lia.
    + destruct s as [|x r]; [discriminate|].
      destruct (cls_matches ic k x); [|discriminate].
      apply (IH inside) in H; auto.
      pose proof (weight_step_outside inside x r m Hopen). lia.
    + assert (G := greedy_inv
                (fun s m0 res => List.length (opened m0) = (if inside then 1 else 0) ->
                                 weight (snd res) (fst res) + min_outside inside p
                                 <= weight s m0)
                k (match_here ic p)).
      refine (G _ _ s prev m (m', rest) H Hopen).
      * intros prev' s' m0 [m1 rest'] Hm Ho. now apply (IH inside) in Hm.
      * intros x r m0 res Hq Ho. pose proof (weight_step x r m0).
        specialize (Hq Ho). lia.
    + destruct s as [|x r]; [discriminate|].
      destruct (cls_matches ic k x); [|discriminate].
      assert (G := greedy_inv
                (fun s m0 res => List.length (opened m0) = (if inside then 1 else 0) ->
                                 weight (snd res) (fst res) + min_outside inside p
                                 <= weight s m0)
                k (match_here ic p)).
      assert (Hw : weight rest m' + min_outside inside p <= weight r m).
      { refine (G _ _ r (Some x) m (m', rest) H Hopen).
        - intros prev' s' m0 [m1 rest'] Hm Ho. now apply (IH inside) in Hm.
        - intros y r' m0 res Hq Ho. pose proof (weight_step y r' m0).
          specialize (Hq Ho). lia. }
      pose proof (weight_step_outside inside x r m Hopen). lia.
    + destruct s as [|x r]; [now apply (IH inside) in H|].
      destruct (cls_matches ic k x); [|now apply (IH inside) in H].
      destruct (match_here ic p (Some x) r m) as [res|] eqn:Hm.
      * injection H as ->. apply (IH inside) in Hm; auto.
        pose proof (weight_step x r m). lia.
      * now apply (IH inside) in H.
    + destruct (at_boundary prev s); [|discriminate]. now apply (IH inside) in H.
    + apply andb_true_iff in Hflat as [Hin Hflat].
      destruct inside; [discriminate|].
      apply (IH true) in H; auto.
      * destruct (opened m) eqn:Ho; [|discriminate].
        revert H. unfold weight, open_span, open_group. simpl. rewrite Ho. simpl. lia.
      * unfold open_group. simpl. now rewrite Hopen.
    + apply andb_true_iff in Hflat as [Hin Hflat].
      destruct inside; [|discriminate].
      destruct (opened m) as [|s0 [|s1 os]] eqn:Ho; try discriminate.
      apply (IH false) in H; auto.
      * revert H. unfold weight, open_span, close_group. rewrite Ho. simpl.
        pose proof (take_length (String.length s0 - String.length s) s0).
        assert (Ht : forall gs g, total_len (gs ++ [g]) = total_len gs + String.length g).
        { induction gs as [|g0 gs IHg]; intros g; simpl; [lia|]. rewrite IHg. lia. }
        rewrite Ht. lia.
      * unfold close_group. rewrite Ho. reflexivity.
Qed.

End MatchMeasures.

Lemma append_length (a b : string) :
  String.length (a +++ b) = String.length a + String.length b.
Proof. induction a as [|c a IH]; simpl; [reflexivity|now rewrite IH]. Qed.

Lemma match_at_inv (ic : bool) (p : Re.pattern) (prev : option ascii) (s : string)
    (gs : list string) (extra : nat) :
  Re.match_at ic p prev s = Some (gs, extra) ->
  exists m rest,
    Re.match_here ic p prev s Re.mstart = Some (m, rest)
    /\ gs = Re.groups m
    /\ String.length s - String.length rest = S extra.
Proof.
  unfold Re.match_at.
  destruct (Re.match_here ic p prev s Re.mstart) as [[m rest]|]; [|discriminate].
  destruct (String.length s - String.length rest) as [|n] eqn:Hn; [discriminate|].
  intros E. injection E as <- <-. now exists m, rest.
Qed.

(** The groups of a match hold no more characters than the match. *)
Lemma groups_within_match (ic : bool) (p : Re.pattern) (prev : option ascii)
    (s : string) (gs : list string) (extra : nat) :
  ReMeasure.flat false p = true ->
  Re.match_at ic p prev s = Some (gs, extra) ->
  ReMeasure.total_len gs <= S extra.
Proof.
  intros Hflat H. apply match_at_inv in H as (m & rest & Hm & -> & Hlen).
  apply (match_here_weight ic p false) in Hm; [|exact Hflat|reflexivity].
  unfold ReMeasure.weight in Hm. simpl in Hm. lia.
Qed.

Lemma refs_within_groups (gs : list string) :
  String.length (Re.expand [Re.Ref 1; Re.Ref 2; Re.Ref 3] gs) <= ReMeasure.total_len gs
  /\ String.length (Re.expand [Re.Ref 1; Re.Ref 2] gs) <= ReMeasure.total_len gs
  /\ String.length (Re.expand [Re.Ref 1] gs) <= ReMeasure.total_len gs.
Proof.
  destruct gs as [|a [|b [|c gs]]]; simpl; rewrite ?append_length; simpl; lia.
Qed.

Lemma text_within_match (ic : bool) (p : Re.pattern) (t : string) :
  String.length t <= ReMeasure.min_len p ->
  shrinks ic p [Re.Text t].
Proof.
  intros Ht prev s gs extra H.
  apply match_at_inv in H as (m & rest & Hm & _ & Hlen).
  apply match_here_consumes in Hm.
  simpl. rewrite append_length. simpl. lia.
Qed.

Lemma rules_shrink :
  Forall (fun r => shrinks (Normalizer.rule_ic r) (Normalizer.rule_pattern r)
                     (Normalizer.rule_repl r))
         Normalizer.rules.
Proof.
  unfold Normalizer.rules.
  repeat apply Forall_cons; try apply Forall_nil;
    cbn [Normalizer.rule_ic Normalizer.rule_pattern Normalizer.rule_repl].
  - intros prev s gs extra H.
    apply groups_within_match in H; [|reflexivity].
    pose proof (refs_within_groups gs). lia.
  - intros prev s gs extra H.
    apply groups_within_match in H; [|reflexivity].
    pose proof (refs_within_groups gs). lia.
  - intros prev s gs extra H.
    apply groups_within_match in H; [|reflexivity].
    pose proof (refs_within_groups gs). lia.
  - apply text_within_match. vm_compute. lia.
  - apply text_within_match. vm_compute. lia.
  - apply text_within_match. vm_compute. lia.
Qed.

Lemma sub_from_length (ic : bool) (p : Re.pattern) (repl : list Re.piece) :
  shrinks ic p repl ->
  forall s prev skip,
    String.length (Re.sub_from ic p repl prev s skip) <= String.length s - skip.
Proof.
  intros Hshrink. induction s as [|c r IH]; intros prev skip; [simpl; lia|].
  cbn [Re.sub_from]. destruct skip as [|k].
  - destruct (Re.match_at ic p prev (String c r)) as [[gs extra]|] eqn:Hm.
    + rewrite append_length. specialize (IH (Some c) extra).
      pose proof (Hshrink _ _ _ _ Hm) as Hrepl.
      apply match_at_inv in Hm as (m & rest & _ & _ & Hlen).
      change (String.length (String c r)) with (S (String.length r)) in *. lia.
    + specialize (IH (Some c) 0).
      change (String.length (String c ?x)) with (S (String.length x)). lia.
  - specialize (IH (Some c) k).
    change (String.length (String c r)) with (S (String.length r)). lia.
Qed.

Lemma sub_length (ic : bool) (p : Re.pattern) (repl : list Re.piece) (s : string) :
  shrinks ic p repl ->
  String.length (Re.sub ic p repl s) <= String.length s.
Proof.
  intros H. unfold Re.sub. pose proof (sub_from_length ic p repl H s None 0). lia.
Qed.

(** The normaliser never lengthens its text. *)
Lemma normalize_length (text : string) :
  String.length (Normalizer.normalize_legal_terms text) <= String.length text.
Proof.
  pose proof rules_shrink as H. unfold Normalizer.rules in H.
  repeat match goal with
         | H : Forall _ (_ :: _) |- _ =>
             let H1 := fresh "Hrule" in
             apply Forall_cons_iff in H as [H1 H];
             cbn [Normalizer.rule_ic Normalizer.rule_pattern Normalizer.rule_repl] in H1
         end.
  unfold Normalizer.normalize_legal_terms.
  destruct (PyStr.is_empty text); [simpl; lia|]. cbv zeta.
  repeat match goal with
         | Hr : shrinks ?ic ?p ?repl
           |- context [Re.sub ?ic ?p ?repl ?s] =>
             pose proof (sub_length ic p repl s Hr); clear Hr
         end.
  lia.
Qed.

(** None of the six patterns matches the empty text, so [match_at] loses
    no match of theirs. *)
Lemma rule_matches_consume (r : Normalizer.rule) :
  In r Normalizer.rules ->
  forall prev s m m' rest,
    Re.match_here (Normalizer.rule_ic r) (Normalizer.rule_pattern r) prev s m
    = Some (m', rest) ->
    String.length rest < String.length s.
Proof.
  intros Hin prev s m m' rest H.
  apply match_here_consumes in H.
  assert (Hmin : 1 <= ReMeasure.min_len (Normalizer.rule_pattern r)).
  { unfold Normalizer.rules in Hin. simpl in Hin.
    repeat (destruct Hin as [<-|Hin]; [vm_compute; lia|]). destruct Hin. }
  lia.
Qed.

(** ** Every chunk shows after the cut *)

Lemma shows_short (part : string) :
  PyStr.all_space part = false ->
  String.length part <= Composer.max_chars ->
  shows part.
Proof. intros Hs Hl. unfold shows. now rewrite take_all. Qed.

Lemma shows_head (c : ascii) (r : string) :
  PyStr.isspace c = false -> shows (String c r).
Proof.
  intros Hc. unfold shows.
  destruct Composer.max_chars as [|n] eqn:E; [vm_compute in E; discriminate|].
  simpl. now rewrite Hc.
Qed.

Lemma shows_append (part more : string) :
  shows part -> shows (part +++ more).
Proof.
  unfold shows. generalize Composer.max_chars as n. intros n. revert part.
  induction n as [|n IH]; intros [|c r]; simpl; try discriminate.
  destruct (PyStr.isspace c); simpl; [apply IH|reflexivity].
Qed.

Lemma chunk_shows (v : value) (cap weight : nat) :
  cap <= Composer.max_chars ->
  Forall shows (Composer.chunk v cap weight).
Proof.
  intros Hcap. unfold Composer.chunk. cbv zeta.
  set (normalized := Normalizer.normalize_legal_terms _).
  destruct (PyStr.is_empty (PyStr.strip normalized)) eqn:Hblank; simpl; [constructor|].
  rewrite strip_empty_iff_all_space in Hblank.
  apply Forall_forall. intros part Hin. apply repeat_spec in Hin as ->.
  apply shows_short; [exact Hblank|].
  subst normalized.
  pose proof (normalize_length (PyStr.take cap (flatten_field v))).
  pose proof (take_length cap (flatten_field v)). lia.
Qed.

Lemma Forall_if_app {A : Type} (P : A -> Prop) (c : bool) (l x : list A) :
  Forall P l -> Forall P x -> Forall P (if c then l ++ x else l).
Proof.
  intros Hl Hx. destruct c; [|exact Hl]. apply Forall_app. now split.
Qed.

(** One binding of [compose_parts] at a time: a value is forgotten, a
    list of parts is replaced by the fact that its chunks show. *)
Ltac step_parts :=
  lazymatch goal with
  | |- Forall shows (let x := ?v in @?body x) =>
      let y := fresh "bound" in
      pose (y := v);
      change (Forall shows (body y)); cbv beta;
      lazymatch type of v with
      | list string =>
          let H := fresh "Hparts" in
          assert (H : Forall shows y);
          [ subst y;
            first
              [ exact (Forall_nil shows)
              | apply Forall_if_app;
                [ assumption
                | first [ apply chunk_shows; apply Nat.leb_le; vm_compute; reflexivity
                        | apply Forall_cons; [apply shows_head; reflexivity|constructor] ] ] ]
          | clearbody y ]
      | _ => clearbody y
      end
  end.

Lemma compose_parts_show (case : dict) :
  Forall shows (Composer.compose_parts case).
Proof.
  cbv beta delta [Composer.compose_parts].
  repeat step_parts. assumption.
Qed.

Lemma join_shows (parts : list string) :
  Forall shows parts -> parts <> [] ->
  PyStr.all_space (PyStr.take Composer.max_chars (PyStr.join " " parts)) = false.
Proof.
  intros Hall Hne. destruct parts as [|part rest]; [congruence|].
  apply Forall_inv in Hall. unfold PyStr.join. cbn [String.concat].
  destruct rest; [exact Hall|]. now apply shows_append.
Qed.

(** C9, as the code has it.  For a Case mapping with at least one entry:
    when the joined chunks are empty or all whitespace the composer returns
    the placeholder built from [case_id], and otherwise it returns the
    joined chunks cut to 10,000 characters.  The placeholder itself is not
    cut. *)
Theorem composite_cut_or_placeholder (case : dict) :
  case <> [] ->
  (PyStr.all_space (PyStr.join " " (Composer.compose_parts case)) = true ->
   Composer.prepare_text_for_embedding (VDict case) = Composer.placeholder case)
  /\ (PyStr.all_space (PyStr.join " " (Composer.compose_parts case)) = false ->
      Composer.prepare_text_for_embedding (VDict case)
      = PyStr.take (100 * 100) (PyStr.join " " (Composer.compose_parts case))
      /\ String.length (Composer.prepare_text_for_embedding (VDict case))
         <= 100 * 100).
Proof.
  destruct case as [|e d]; [congruence|]. intros _.
  assert (Hout := prepare_text_nonempty_dict e d).
  split.
  - intros Hblank. rewrite Hout.
    now rewrite (take_all_space Composer.max_chars _ Hblank).
  - intros Hshown.
    assert (Hparts : Composer.compose_parts (e :: d) <> []).
    { intros Hnil. rewrite Hnil in Hshown. discriminate. }
    rewrite (join_shows _ (compose_parts_show (e :: d)) Hparts) in Hout.
    change Composer.max_chars with (100 * 100) in Hout.
    split; [exact Hout|]. rewrite Hout. apply take_length.
Qed.

Lemma composite_cut_or_placeholder_witness :
  Scenario.case_without_text <> []
  /\ Composer.prepare_text_for_embedding (VDict Scenario.case_without_text)
     = "Case A - No extractable text".
Proof.
  split; [discriminate|].
  assert (H : Scenario.case_without_text <> []) by discriminate.
  destruct (composite_cut_or_placeholder Scenario.case_without_text H) as [Hblank _].
  rewrite Hblank; reflexivity.
Defined.

(** C9 as stated fails twice: the empty mapping has no chunks and yet gets
    "Empty case" instead of the placeholder, and a case without text whose
    identifier has 10,000 characters gets a placeholder of 10,027. *)
Lemma composite_not_always_bounded_nor_placeholder :
  Composer.prepare_text_for_embedding (VDict []) = "Empty case"
  /\ PyStr.join " " (Composer.compose_parts []) = EmptyString
  /\ Composer.prepare_text_for_embedding (VDict []) <> Composer.placeholder []
  /\ String.length
       (Composer.prepare_text_for_embedding
          (VDict [("case_id", VStr (copies (100 * 100) "x"))]))
     = 100 * 100 + 27
  /\ ~ String.length
         (Composer.prepare_text_for_embedding
            (VDict [("case_id", VStr (copies (100 * 100) "x"))]))
       <= 100 * 100.
Proof.
  split; [reflexivity|]. split; [reflexivity|]. split; [discriminate|].
  assert (E : String.length
       (Composer.prepare_text_for_embedding
          (VDict [("case_id", VStr (copies (100 * 100) "x"))]))
     = 100 * 100 + 27) by (vm_compute; reflexivity).
  split; [exact E|]. rewrite E. lia.
Qed.

Lemma dict_get_ext (c1 c2 : dict) :
  (forall k, lookup k c1 = lookup k c2) ->
  forall k default, dict_get c1 k default = dict_get c2 k default.
Proof. intros H k default. unfold dict_get. now rewrite H. Qed.

Lemma lookup_head (k : string) (v : value) (d : dict) :
  lookup k ((k, v) :: d) = Some v.
Proof. simpl. now rewrite String.eqb_refl. Qed.

Lemma let_ext {A C : Type} (v1 v2 : A) (b1 b2 : A -> C) :
  v1 = v2 -> (forall y, b1 y = b2 y) ->
  (let x := v1 in b1 x) = (let x := v2 in b2 x).
Proof. intros -> Hb. apply Hb. Qed.

(** One binding of [compose_parts] at a time, on both sides. *)
Ltac step_ext H :=
  lazymatch goal with
  | |- (let x := ?v1 in @?b1 x) = (let y := ?v2 in @?b2 y) =>
      refine (let_ext v1 v2 b1 b2 _ _);
      [ rewrite ?(dict_get_ext _ _ H); reflexivity
      | intros ?bound; cbv beta ]
  end.

Lemma compose_parts_ext (c1 c2 : dict) :
  (forall k, lookup k c1 = lookup k c2) ->
  Composer.compose_parts c1 = Composer.compose_parts c2.
Proof.
  intros H. cbv beta delta [Composer.compose_parts].
  repeat step_ext H. reflexivity.
Qed.

(** C6. The composite depends on the Case only through the value found
    under each key: two mappings that agree key by key, in whatever order
    their entries were inserted, compose to the same string.  With the
    same mapping on both sides these are two runs on one Case.  The
    function takes nothing but the Case: no clock, no random source and no
    state of the finder. *)
Theorem prepare_text_deterministic (c1 c2 : dict) :
  (forall k, lookup k c1 = lookup k c2) ->
  Composer.prepare_text_for_embedding (VDict c1)
  = Composer.prepare_text_for_embedding (VDict c2).
Proof.
  intros H.
  destruct c1 as [|[k1 v1] d1], c2 as [|[k2 v2] d2].
  - reflexivity.
  - specialize (H k2). rewrite lookup_head in H. discriminate.
  - specialize (H k1). rewrite lookup_head in H. discriminate.
  - rewrite !prepare_text_nonempty_dict. cbv zeta.
    rewrite (compose_parts_ext _ _ H).
    unfold Composer.placeholder. rewrite (dict_get_ext _ _ H). reflexivity.
Qed.

Lemma prepare_text_deterministic_witness :
  (forall k, lookup k Scenario.summary_then_court = lookup k Scenario.court_then_summary)
  /\ Composer.prepare_text_for_embedding (VDict Scenario.summary_then_court)
     = Composer.prepare_text_for_embedding (VDict Scenario.court_then_summary).
Proof.
  assert (H : forall k,
             lookup k Scenario.summary_then_court = lookup k Scenario.court_then_summary).
  { intros k. simpl.
    destruct (String.eqb k "summary") eqn:E1, (String.eqb k "court") eqn:E2;
      try reflexivity.
    apply String.eqb_eq in E1, E2. congruence. }
  split; [exact H|].
  exact (prepare_text_deterministic
           Scenario.summary_then_court Scenario.court_then_summary H).
Defined.

(** C8, at the failing input.  A case whose type, outcome and court are
    all the sentinel gets no Type tag, but it does get an Outcome tag and
    a Court tag. *)
Theorem unknown_outcome_and_court_are_tagged :
  Composer.compose_parts Scenario.case_of_unknowns
  = ["Outcome: Unknown"; "Court: Unknown"]
  /\ Composer.prepare_text_for_embedding (VDict Scenario.case_of_unknowns)
     = "Outcome: Unknown Court: Unknown".
Proof. split; vm_compute; reflexivity. Qed.

(** ** The normaliser *)

Lemma sub_from_without_match (ic : bool) (p : Re.pattern) (repl : list Re.piece)
    (s : string) (prev : option ascii) :
  Re.search_from ic p prev s = false ->
  Re.sub_from ic p repl prev s 0 = s.
Proof.
  revert prev. induction s as [|c r IH]; intros prev; [reflexivity|].
  cbn [Re.search_from Re.sub_from].
  destruct (Re.match_at ic p prev (String c r)) as [[gs extra]|]; [discriminate|].
  intros H. f_equal. now apply IH.
Qed.

Lemma sub_without_match (ic : bool) (p : Re.pattern) (repl : list Re.piece) (s : string) :
  Re.search ic p s = false -> Re.sub ic p repl s = s.
Proof. apply sub_from_without_match. Qed.

(** Text free of the six patterns is left as it is. *)
Lemma normalize_without_match (text : string) :
  Normalizer.no_rule_matches text = true ->
  Normalizer.normalize_legal_terms text = text.
Proof.
  unfold Normalizer.no_rule_matches, Normalizer.rules. cbn [forallb].
  cbn [Normalizer.rule_ic Normalizer.rule_pattern].
  rewrite !andb_true_iff, !negb_true_iff.
  intros (H1 & H2 & H3 & H4 & H5 & H6 & _).
  unfold Normalizer.normalize_legal_terms.
  destruct text as [|c r]; [reflexivity|]. cbn [PyStr.is_empty]. cbv zeta.
  rewrite (sub_without_match _ _ _ _ H1), (sub_without_match _ _ _ _ H2),
    (sub_without_match _ _ _ _ H3), (sub_without_match _ _ _ _ H4),
    (sub_without_match _ _ _ _ H5).
  exact (sub_without_match _ _ _ _ H6).
Qed.

(** *** Every rewrite shortens the text *)

Lemma groups_outside_match (ic : bool) (p : Re.pattern) (prev : option ascii)
    (s : string) (gs : list string) (extra : nat) :
  ReMeasure.flat false p = true ->
  Re.match_at ic p prev s = Some (gs, extra) ->
  ReMeasure.total_len gs + ReMeasure.min_outside false p <= S extra.
Proof.
  intros Hflat H. apply match_at_inv in H as (m & rest & Hm & -> & Hlen).
  apply (match_here_outside ic p false) in Hm; [|exact Hflat|reflexivity].
  unfold ReMeasure.weight in Hm. simpl in Hm. lia.
Qed.

Lemma text_shortens (ic : bool) (p : Re.pattern) (t : string) :
  String.length t < ReMeasure.min_len p ->
  shortens ic p [Re.Text t].
Proof.
  intros Ht prev s gs extra H.
  apply match_at_inv in H as (m & rest & Hm & _ & Hlen).
  apply match_here_consumes in Hm.
  simpl. rewrite append_length. simpl. lia.
Qed.

(** Each of the six replacements is shorter than what it replaces: the
    initials lose their dots, the section number loses its word, and each
    abbreviation is shorter than its phrase. *)
Lemma rules_shorten :
  Forall (fun r => shortens (Normalizer.rule_ic r) (Normalizer.rule_pattern r)
                     (Normalizer.rule_repl r))
         Normalizer.rules.
Proof.
  unfold Normalizer.rules.
  repeat apply Forall_cons; try apply Forall_nil;
    cbn [Normalizer.rule_ic Normalizer.rule_pattern Normalizer.rule_repl].
  - intros prev s gs extra H.
    apply groups_outside_match in H; [|reflexivity].
    assert (E : ReMeasure.min_outside false Normalizer.initials3 = 2) by reflexivity.
    rewrite E in H. pose proof (refs_within_groups gs). lia.
  - intros prev s gs extra H.
    apply groups_outside_match in H; [|reflexivity].
    assert (E : ReMeasure.min_outside false Normalizer.initials2 = 1) by reflexivity.
    rewrite E in H. pose proof (refs_within_groups gs). lia.
  - intros prev s gs extra H.
    apply groups_outside_match in H; [|reflexivity].
    assert (E : ReMeasure.min_outside false Normalizer.section_number = 8) by reflexivity.
    rewrite E in H. pose proof (refs_within_groups gs). lia.
  - apply text_shortens. vm_compute. lia.
  - apply text_shortens. vm_compute. lia.
  - apply text_shortens. vm_compute. lia.
Qed.

Lemma shortens_shrinks (ic : bool) (p : Re.pattern) (repl : list Re.piece) :
  shortens ic p repl -> shrinks ic p repl.
Proof.
  intros H prev s gs extra Hm. specialize (H prev s gs extra Hm). lia.
Qed.

Lemma sub_from_shorter (ic : bool) (p : Re.pattern) (repl : list Re.piece) :
  shortens ic p repl ->
  forall s prev,
    Re.search_from ic p prev s = true ->
    String.length (Re.sub_from ic p repl prev s 0) < String.length s.
Proof.
  intros Hshort. induction s as [|c r IH]; intros prev; [discriminate|].
  cbn [Re.search_from Re.sub_from].
  destruct (Re.match_at ic p prev (String c r)) as [[gs extra]|] eqn:Hm.
  - intros _. rewrite append_length.
    pose proof (sub_from_length ic p repl (shortens_shrinks _ _ _ Hshort)
                  r (Some c) extra) as Hrest.
    pose proof (Hshort _ _ _ _ Hm) as Hrepl.
    apply match_at_inv in Hm as (m & rest & _ & _ & Hlen).
    change (String.length (String c r)) with (S (String.length r)) in *. lia.
  - intros H. specialize (IH (Some c) H).
    change (String.length (String c ?x)) with (S (String.length x)). lia.
Qed.

(** One [re.sub]: without a match the text is returned as it is, and with
    one it comes back shorter. *)
Lemma sub_same_or_shorter (ic : bool) (p : Re.pattern) (repl : list Re.piece)
    (s : string) :
  shortens ic p repl ->
  (Re.search ic p s = false /\ Re.sub ic p repl s = s)
  \/ (Re.search ic p s = true
      /\ String.length (Re.sub ic p repl s) < String.length s).
Proof.
  intros Hshort. destruct (Re.search ic p s) eqn:Hs.
  - right. split; [reflexivity|]. now apply sub_from_shorter.
  - left. split; [reflexivity|]. now apply sub_without_match.
Qed.

(** One pass of the normaliser: the text is free of the six patterns and
    returned as it is, or it holds a match and comes back shorter. *)
Lemma normalize_same_or_shorter (text : string) :
  (Normalizer.no_rule_matches text = true
   /\ Normalizer.normalize_legal_terms text = text)
  \/ (Normalizer.no_rule_matches text = false
      /\ String.length (Normalizer.normalize_legal_terms text) < String.length text).
Proof.
  destruct (Normalizer.no_rule_matches text) eqn:Hfree.
  - left. split; [reflexivity|]. now apply normalize_without_match.
  - right. split; [reflexivity|]. revert Hfree.
    pose proof rules_shorten as H. unfold Normalizer.rules in H.
    repeat match goal with
           | H : Forall _ (_ :: _) |- _ =>
               let H1 := fresh "Hrule" in
               apply Forall_cons_iff in H as [H1 H];
               cbn [Normalizer.rule_ic Normalizer.rule_pattern Normalizer.rule_repl] in H1
           end.
    unfold Normalizer.no_rule_matches, Normalizer.rules. cbn [forallb].
    cbn [Normalizer.rule_ic Normalizer.rule_pattern].
    unfold Normalizer.normalize_legal_terms.
    destruct (PyStr.is_empty text) eqn:Hempty.
    { destruct text; [discriminate|discriminate]. }
    cbv zeta.
    repeat match goal with
           | Hs : shortens ?ic ?p ?repl
             |- context [Re.sub ?ic ?p ?repl text] =>
               destruct (sub_same_or_shorter ic p repl text Hs) as [[-> ->]|[-> ?]];
               [cbn [negb andb]|]
           end;
      try discriminate;
      intros _;
      repeat match goal with
             | Hr : shortens ?ic ?p ?repl
               |- context [Re.sub ?ic ?p ?repl ?s] =>
                 pose proof (sub_length ic p repl s (shortens_shrinks _ _ _ Hr));
                 clear Hr
             end;
      lia.
Qed.

(** The texts that the normaliser returns as they are, are those free of
    the six patterns. *)
Lemma normalize_fixed_iff (text : string) :
  Normalizer.normalize_legal_terms text = text
  <-> Normalizer.no_rule_matches text = true.
Proof.
  split; [|apply normalize_without_match].
  intros Hfix. destruct (normalize_same_or_shorter text) as [[H _]|[_ H]]; [exact H|].
  rewrite Hfix in H. lia.
Qed.

Lemma renormalize_fixed (n : nat) (text : string) :
  Normalizer.normalize_legal_terms text = text -> renormalize n text = text.
Proof.
  intros Hfix. unfold renormalize.
  induction n as [|n IH]; [reflexivity|]. simpl. now rewrite IH.
Qed.

Lemma renormalize_settles (n : nat) :
  forall text,
    String.length text <= n ->
    Normalizer.normalize_legal_terms (renormalize n text) = renormalize n text.
Proof.
  induction n as [|n IH]; intros text Hlen.
  - destruct text; [reflexivity|simpl in Hlen; lia].
  - destruct (normalize_same_or_shorter text) as [[_ Hfix]|[_ Hshorter]].
    + rewrite (renormalize_fixed (S n) text Hfix). exact Hfix.
    + unfold renormalize. rewrite Nat.iter_succ_r.
      apply (IH (Normalizer.normalize_legal_terms text)). lia.
Qed.

(** C7, as the code has it.  The normaliser is not idempotent, but it
    settles.  One pass returns the text as it is exactly when none of the
    six patterns occurs in it, and a shorter text otherwise; so a second
    pass changes nothing exactly when the first result is free of the
    patterns, and as many passes as the text has characters always end in
    a text that a further pass leaves as it is. *)
Theorem normalize_settles (x : string) :
  (Normalizer.normalize_legal_terms x = x <-> Normalizer.no_rule_matches x = true)
  /\ (Normalizer.normalize_legal_terms x = x
      \/ String.length (Normalizer.normalize_legal_terms x) < String.length x)
  /\ (Normalizer.normalize_legal_terms (Normalizer.normalize_legal_terms x)
      = Normalizer.normalize_legal_terms x
      <-> Normalizer.no_rule_matches (Normalizer.normalize_legal_terms x) = true)
  /\ Normalizer.normalize_legal_terms (renormalize (String.length x) x)
     = renormalize (String.length x) x.
Proof.
  split; [apply normalize_fixed_iff|]. split.
  - destruct (normalize_same_or_shorter x) as [[_ H]|[_ H]]; [now left|now right].
  - split; [apply normalize_fixed_iff|]. now apply renormalize_settles.
Qed.

(** Two passes settle the doubled word, and one pass the usual citation. *)
Example renormalize_doubled_section :
  renormalize 1 "Section Section 302" = "Section 302"
  /\ renormalize 2 "Section Section 302" = "302"
  /\ renormalize (String.length "Section Section 302") "Section Section 302" = "302"
  /\ Normalizer.normalize_legal_terms
       (Normalizer.normalize_legal_terms "Section 302 of the Indian Penal Code")
     = Normalizer.normalize_legal_terms "Section 302 of the Indian Penal Code".
Proof.
  split; [vm_compute; reflexivity|]. split; [vm_compute; reflexivity|].
  split; vm_compute; reflexivity.
Qed.

(** C7 as stated fails: removing the inner "Section" of a doubled word
    leaves a new "Section 302", which only a second pass removes. *)
Lemma normalize_not_idempotent :
  Normalizer.normalize_legal_terms "Section Section 302" = "Section 302"
  /\ Normalizer.normalize_legal_terms "Section 302" = "302"
  /\ Normalizer.normalize_legal_terms
       (Normalizer.normalize_legal_terms "Section Section 302")
     <> Normalizer.normalize_legal_terms "Section Section 302".
Proof.
  assert (E1 : Normalizer.normalize_legal_terms "Section Section 302" = "Section 302")
    by (vm_compute; reflexivity).
  assert (E2 : Normalizer.normalize_legal_terms "Section 302" = "302")
    by (vm_compute; reflexivity).
  split; [exact E1|]. split; [exact E2|].
  rewrite E1, E2. discriminate.
Qed.

(** The rewrites feed each other as well: the abbreviation of an act can
    complete a pair of dotted initials. *)
Example normalize_act_then_initials :
  Normalizer.normalize_legal_terms "X.income tax act" = "X.IT Act"
  /\ Normalizer.normalize_legal_terms "X.IT Act" = "XIT Act".
Proof. split; vm_compute; reflexivity. Qed.

(** ** The cache manager *)

Section CacheManager.

Context {B : Backend}.

Lemma load_cases_run (w : world) :
  load_cases w = (Ok tt, set_cases (loaded_corpus w) w).
Proof.
  unfold load_cases, loaded_corpus. destruct (judgments_file w); reflexivity.
Qed.

Lemma compute_embeddings_logs (w : world) (c : value) (cs : list value) :
  cases w = c :: cs ->
  encoded (snd (compute_embeddings w)) = encoded w ++ [texts_to_embed (c :: cs)].
Proof.
  intros Hc. unfold compute_embeddings, try_except, bind, get, model_encode.
  rewrite Hc. fold (texts_to_embed (c :: cs)).
  destruct (encode (texts_to_embed (c :: cs))); reflexivity.
Qed.

Lemma save_embeddings_keeps_log (w : world) :
  encoded (snd (save_embeddings w)) = encoded w.
Proof.
  unfold save_embeddings, bind, get.
  destruct (embeddings w); [destruct (disk_writable w)|]; reflexivity.
Qed.

Lemma recompute_logs (w : world) (c : value) (cs : list value) :
  cases w = c :: cs ->
  encoded (snd (bind compute_embeddings (fun _ => save_embeddings) w))
  = encoded w ++ [texts_to_embed (c :: cs)].
Proof.
  intros Hc. unfold bind.
  assert (Hlog := compute_embeddings_logs w c cs Hc).
  destruct (compute_embeddings w) as [[[]|e] w']; simpl in *.
  - now rewrite save_embeddings_keeps_log.
  - exact Hlog.
Qed.

Lemma compute_embeddings_nothing (w : world) :
  cases w = [] -> compute_embeddings w = (Ok tt, w).
Proof.
  intros Hc. unfold compute_embeddings, try_except, bind, get, ret. now rewrite Hc.
Qed.

(** What a recompute hands to the model: every case of the corpus in one
    call, and nothing when the corpus is empty. *)
Lemma recompute_logs_corpus (w : world) :
  encoded (snd (bind compute_embeddings (fun _ => save_embeddings) w))
  = encoded w ++ match cases w with
                 | [] => []
                 | c :: cs => [texts_to_embed (c :: cs)]
                 end.
Proof.
  destruct (cases w) as [|c cs] eqn:Hc.
  - unfold bind. rewrite (compute_embeddings_nothing w Hc).
    rewrite save_embeddings_keeps_log. now rewrite app_nil_r.
  - now apply recompute_logs.
Qed.

(** C1, as the code has it.  In every state of the corpus and of the cache
    file, the cache is used exactly when the file exists and loads: then
    its matrix becomes the finder's embeddings, whatever case count and
    model name it stores, and nothing else happens, the model is not
    called.  Only a file that is missing or does not load makes the finder
    run [compute_embeddings] and [save_embeddings], which hands every case
    of a corpus that has cases to the model in one call, and nothing when
    the corpus is empty. *)
Theorem cache_used_iff_it_loads (model_name : string) (w : world) :
  (forall cache,
      cache_file w = Some (Pickled cache) ->
      init model_name w
      = (Ok tt, set_embeddings (Some (cache_embeddings cache))
                  (set_cases (loaded_corpus w) w)))
  /\ ((forall cache, cache_file w <> Some (Pickled cache)) ->
      init model_name w
      = bind compute_embeddings (fun _ => save_embeddings)
          (set_cases (loaded_corpus w) w)
      /\ encoded (snd (init model_name w))
         = encoded w ++ match loaded_corpus w with
                        | [] => []
                        | c :: cs => [texts_to_embed (c :: cs)]
                        end).
Proof.
  split.
  - intros cache Hcache. unfold init, bind at 1. rewrite load_cases_run.
    unfold load_or_compute_embeddings, bind, get, modify. simpl.
    rewrite Hcache. reflexivity.
  - intros Hnone.
    assert (Hrun : init model_name w
                   = bind compute_embeddings (fun _ => save_embeddings)
                       (set_cases (loaded_corpus w) w)).
    { unfold init, bind at 1. rewrite load_cases_run.
      unfold load_or_compute_embeddings, bind at 1, get.
      change (cache_file (set_cases (loaded_corpus w) w)) with (cache_file w).
      destruct (cache_file w) as [[cache|]|] eqn:Hcache; [|reflexivity|reflexivity].
      exfalso. now apply (Hnone cache). }
    split; [exact Hrun|].
    rewrite Hrun, recompute_logs_corpus. reflexivity.
Qed.

End CacheManager.

Lemma cache_used_iff_it_loads_witness :
  cache_file (Scenario.before_init (Some Scenario.corpus)
                (Some (Pickled Scenario.stale_cache)))
  = Some (Pickled Scenario.stale_cache)
  /\ embeddings
       (snd (@init Toy.backend Scenario.configured_model
               (Scenario.before_init (Some Scenario.corpus)
                  (Some (Pickled Scenario.stale_cache)))))
     = Some [[1; 0]%Q]
  /\ (forall cache,
        cache_file (Scenario.before_init (Some Scenario.corpus) None)
        <> Some (Pickled cache))
  /\ encoded
       (snd (@init Toy.backend Scenario.configured_model
               (Scenario.before_init (Some Scenario.corpus) None)))
     = [texts_to_embed Scenario.corpus].
Proof.
  assert (Hno : forall cache,
             cache_file (Scenario.before_init (Some Scenario.corpus) None)
             <> Some (Pickled cache)) by (intros cache; discriminate).
  split; [reflexivity|]. split; [|split; [exact Hno|]].
  - destruct (@cache_used_iff_it_loads Toy.backend Scenario.configured_model
                (Scenario.before_init (Some Scenario.corpus)
                   (Some (Pickled Scenario.stale_cache))))
      as [Hused _].
    rewrite (Hused Scenario.stale_cache eq_refl). reflexivity.
  - destruct (@cache_used_iff_it_loads Toy.backend Scenario.configured_model
                (Scenario.before_init (Some Scenario.corpus) None))
      as [_ Hrecompute].
    destruct (Hrecompute Hno) as [_ Hlog].
    rewrite Hlog. reflexivity.
Defined.

(** C1 as stated fails: a cache that stores one case and another model is
    loaded for a corpus of three cases under the configured model, nothing
    is recomputed, and the next query is answered from it. *)
Lemma stale_cache_is_used :
  cache_num_cases Scenario.stale_cache <> List.length Scenario.corpus
  /\ cache_model_name Scenario.stale_cache <> Scenario.configured_model
  /\ @init Toy.backend Scenario.configured_model
       (Scenario.before_init (Some Scenario.corpus) (Some (Pickled Scenario.stale_cache)))
     = (Ok tt,
        World Scenario.corpus (Some [[1; 0]%Q]) "cpu" (Some Scenario.corpus)
              (Some (Pickled Scenario.stale_cache)) true [])
  /\ fst (@find_similar_by_text Toy.backend "murder under section 302" 5
            (World Scenario.corpus (Some [[1; 0]%Q]) "cpu" (Some Scenario.corpus)
                   (Some (Pickled Scenario.stale_cache)) true []))
     = Ok [(Scenario.case_A, 1%Q)].
Proof.
  split; [vm_compute; lia|]. split; [discriminate|].
  split; vm_compute; reflexivity.
Qed.

(** ** Rejected queries *)

Section Rejections.

Context {B : Backend}.

Lemma blank_query_test (q : string) :
  PyStr.is_empty q || PyStr.is_empty (PyStr.strip q) = PyStr.all_space q.
Proof.
  rewrite strip_empty_iff_all_space. destruct q; reflexivity.
Qed.

(** C4, as the code has it.  A query that is empty or all whitespace is
    rejected without being embedded and without any change to the finder:
    with [InvalidQuery] when a matrix is in memory, and with
    [CacheUnavailable], which is tested first, when there is none. *)
Theorem blank_query_rejected (w : world) (query_text : string) (topk : Z) :
  PyStr.all_space query_text = true ->
  find_similar_by_text query_text topk w
  = (Raise (match embeddings w with
            | Some _ => InvalidQuery
            | None => CacheUnavailable
            end), w).
Proof.
  intros Hblank. unfold find_similar_by_text, try_except, bind, get, raise.
  destruct (embeddings w) as [stored|]; [|reflexivity].
  rewrite blank_query_test, Hblank. reflexivity.
Qed.

(** C5, as the code has it.  Without a matrix in memory neither entry
    point calls the model or changes the finder; [find_similar_by_text]
    raises [CacheUnavailable], and [find_similar] returns the empty list. *)
Theorem no_embeddings_no_ranking (w : world) :
  embeddings w = None ->
  (forall query_text topk,
      find_similar_by_text query_text topk w = (Raise CacheUnavailable, w))
  /\ (forall query_case topk exclude_self,
      find_similar query_case topk exclude_self w = (Ok [], w)).
Proof.
  intros Hnone. split; intros.
  - unfold find_similar_by_text, try_except, bind, get, raise.
    now rewrite Hnone.
  - unfold find_similar, try_except, bind, get, ret.
    now rewrite Hnone.
Qed.

End Rejections.

Lemma blank_query_rejected_witness :
  PyStr.all_space "   " = true
  /\ @find_similar_by_text Toy.backend "   " 5 (Scenario.ready (Some [[1; 0]%Q]))
     = (Raise InvalidQuery, Scenario.ready (Some [[1; 0]%Q])).
Proof.
  split; [reflexivity|].
  exact (@blank_query_rejected Toy.backend (Scenario.ready (Some [[1; 0]%Q]))
           "   " 5 eq_refl).
Defined.

(** C4 as stated fails where no matrix is in memory: the blank query is
    then answered with [CacheUnavailable], not with [InvalidQuery]. *)
Lemma blank_query_without_embeddings :
  PyStr.all_space EmptyString = true
  /\ fst (@find_similar_by_text Toy.backend EmptyString 5 (Scenario.ready None))
     = Raise CacheUnavailable
  /\ fst (@find_similar_by_text Toy.backend EmptyString 5 (Scenario.ready None))
     <> Raise InvalidQuery.
Proof.
  split; [reflexivity|]. split; [reflexivity|].
  vm_compute. discriminate.
Qed.

Lemma no_embeddings_no_ranking_witness :
  embeddings (Scenario.ready None) = None
  /\ @find_similar_by_text Toy.backend "murder under section 302" 5 (Scenario.ready None)
     = (Raise CacheUnavailable, Scenario.ready None)
  /\ @find_similar Toy.backend Scenario.case_A 5 true (Scenario.ready None)
     = (Ok [], Scenario.ready None).
Proof.
  split; [reflexivity|].
  destruct (@no_embeddings_no_ranking Toy.backend (Scenario.ready None) eq_refl)
    as [Htext Hcase].
  split; [apply Htext|apply Hcase].
Defined.

(** C5 as stated fails for [find_similar]: it reports no error, it
    returns an empty result. *)
Lemma find_similar_without_embeddings :
  embeddings (Scenario.ready None) = None
  /\ fst (@find_similar Toy.backend Scenario.case_A 5 true (Scenario.ready None)) = Ok []
  /\ fst (@find_similar Toy.backend Scenario.case_A 5 true (Scenario.ready None))
     <> Raise CacheUnavailable.
Proof.
  split; [reflexivity|]. split; [reflexivity|].
  vm_compute. discriminate.
Qed.

(** ** Lists, sorting and the result monad *)

Section ListFacts.

Context {A : Type}.
Variable R : A -> A -> Prop.

Lemma strongly_sorted_snoc (l : list A) (a : A) :
  StronglySorted R l -> Forall (fun x => R x a) l -> StronglySorted R (l ++ [a]).
Proof.
  induction l as [|x l IH]; simpl; intros Hs Hall.
  - repeat constructor.
  - apply StronglySorted_inv in Hs as [Hs Hx].
    inversion Hall as [|? ? Hxa Hrest]; subst.
    constructor; [now apply IH|].
    apply Forall_app. split; [exact Hx|]. now constructor.
Qed.

Lemma strongly_sorted_firstn (n : nat) (l : list A) :
  StronglySorted R l -> StronglySorted R (firstn n l).
Proof.
  revert l. induction n as [|n IH]; intros [|x l] Hs; simpl; try constructor.
  - apply IH. now apply StronglySorted_inv in Hs.
  - apply StronglySorted_inv in Hs as [_ Hx].
    rewrite Forall_forall in *. intros y Hy. apply Hx.
    rewrite <- (firstn_skipn n l). apply in_or_app. now left.
Qed.

End ListFacts.

Lemma strongly_sorted_rev {A : Type} (R : A -> A -> Prop) (l : list A) :
  StronglySorted R l -> StronglySorted (fun a b => R b a) (rev l).
Proof.
  induction l as [|x l IH]; simpl; intros Hs; [constructor|].
  apply StronglySorted_inv in Hs as [Hs Hx].
  apply strongly_sorted_snoc; [now apply IH|].
  apply Forall_rev. exact Hx.
Qed.

Lemma strongly_sorted_map {A C : Type} (R : C -> C -> Prop) (g : A -> C) (l : list A) :
  StronglySorted (fun a b => R (g a) (g b)) l -> StronglySorted R (map g l).
Proof.
  induction l as [|x l IH]; simpl; intros Hs; [constructor|].
  apply StronglySorted_inv in Hs as [Hs Hx].
  constructor; [now apply IH|].
  rewrite Forall_forall in *. intros y Hy.
  apply in_map_iff in Hy as (z & <- & Hz). now apply Hx.
Qed.

Lemma slice_to_sorted {A : Type} (R : A -> A -> Prop) (k : Z) (l : list A) :
  StronglySorted R l -> StronglySorted R (slice_to k l).
Proof.
  intros Hs. unfold slice_to.
  destruct (0 <=? k)%Z; now apply strongly_sorted_firstn.
Qed.

Lemma slice_to_incl {A : Type} (k : Z) (l : list A) (x : A) :
  In x (slice_to k l) -> In x l.
Proof.
  unfold slice_to. intros H.
  destruct (0 <=? k)%Z;
    match type of H with In _ (firstn ?n _) =>
      rewrite <- (firstn_skipn n l); apply in_or_app; now left
    end.
Qed.

Lemma rfilter_ok {A : Type} (f : A -> result bool) (l kept : list A) :
  rfilter f l = Ok kept ->
  (forall x, In x kept -> In x l /\ f x = Ok true)
  /\ (forall R : A -> A -> Prop, StronglySorted R l -> StronglySorted R kept).
Proof.
  revert kept. induction l as [|x l IH]; simpl; intros kept H.
  - injection H as <-. split; [intros x []|auto].
  - destruct (f x) as [keep|e] eqn:Hfx; simpl in H; [|discriminate].
    destruct (rfilter f l) as [ys|e]; simpl in H; [|discriminate].
    injection H as <-.
    destruct (IH ys eq_refl) as [Hin Hsorted]. split.
    + intros y Hy. destruct keep.
      * destruct Hy as [<-|Hy]; [split; [now left|exact Hfx]|].
        destruct (Hin y Hy). split; [now right|assumption].
      * destruct (Hin y Hy). split; [now right|assumption].
    + intros R Hs. apply StronglySorted_inv in Hs as [Hs Hx].
      destruct keep; [|now apply Hsorted].
      constructor; [now apply Hsorted|].
      rewrite Forall_forall in *. intros y Hy. apply Hx. now apply Hin.
Qed.

Lemma item_nth {A : Type} (l : list A) (idx : nat) (x d : A) :
  item l idx = Ok x -> nth idx l d = x.
Proof.
  unfold item. destruct (nth_error l idx) as [y|] eqn:H; [|discriminate].
  intros E. injection E as <-. now apply nth_error_nth.
Qed.

Lemma item_in_range {A : Type} (l : list A) (idx : nat) (d : A) :
  idx < List.length l -> item l idx = Ok (nth idx l d).
Proof.
  intros H. unfold item. now rewrite (nth_error_nth' l d H).
Qed.

(** ** The ranker *)

Lemma exclude_in_range (cs : list value) (query_id : value) (tops : list nat) :
  forallb is_dict cs = true ->
  Forall (fun idx => idx < List.length cs) tops ->
  exclude cs query_id tops
  = Ok (filter (fun idx => py_ne (case_id_of (nth idx cs VNone)) query_id) tops).
Proof.
  intros Hdict. unfold exclude.
  induction tops as [|idx tops IH]; simpl; intros Hrange; [reflexivity|].
  inversion Hrange as [|? ? Hidx Hrest]; subst.
  rewrite (item_in_range cs idx VNone Hidx). simpl.
  assert (Hc : is_dict (nth idx cs VNone) = true).
  { rewrite forallb_forall in Hdict. apply Hdict. now apply nth_In. }
  destruct (nth idx cs VNone) as [| | | | |d] eqn:Hn; try discriminate.
  simpl. rewrite (IH Hrest). simpl. reflexivity.
Qed.

Section Ranking.

Context {B : Backend}.

Lemma collect_ok (cs : list value) (sims : list Q) (idxs : list nat)
    (results : list (value * Q)) :
  collect cs sims idxs = Ok results -> results = ranked cs sims idxs.
Proof.
  unfold collect, ranked. revert results.
  induction idxs as [|idx idxs IH]; simpl; intros results H.
  - now injection H as <-.
  - destruct (item cs idx) as [c|e] eqn:Hc; simpl in H; [|discriminate].
    destruct (item sims idx) as [s|e] eqn:Hs; simpl in H; [|discriminate].
    match type of H with
    | rbind ?r _ = _ => destruct r as [ys|e] eqn:Hrest; simpl in H; [|discriminate]
    end.
    injection H as <-. rewrite (IH ys eq_refl).
    unfold score_at. now rewrite (item_nth cs idx c VNone Hc), (item_nth sims idx s 0%Q Hs).
Qed.

Lemma collect_in_range (cs : list value) (sims : list Q) (idxs : list nat) :
  (forall idx, In idx idxs -> idx < List.length cs /\ idx < List.length sims) ->
  collect cs sims idxs = Ok (ranked cs sims idxs).
Proof.
  unfold collect, ranked.
  induction idxs as [|idx idxs IH]; simpl; intros Hrange; [reflexivity|].
  destruct (Hrange idx (or_introl eq_refl)) as [Hc Hs].
  rewrite (item_in_range cs idx VNone Hc), (item_in_range sims idx 0%Q Hs). simpl.
  rewrite IH; [reflexivity|]. intros i Hi. apply Hrange. now right.
Qed.

Lemma ranked_descending (cs : list value) (sims : list Q) (idxs : list nat) :
  StronglySorted (fun i j => (score_at sims j <= score_at sims i)%Q) idxs ->
  descending_scores (ranked cs sims idxs).
Proof.
  intros Hs. unfold descending_scores, ranked. now apply strongly_sorted_map.
Qed.

Lemma ranked_in (cs : list value) (sims : list Q) (idxs : list nat) (r : value * Q) :
  In r (ranked cs sims idxs) ->
  exists idx, In idx idxs /\ r = (nth idx cs VNone, score_at sims idx).
Proof.
  unfold ranked. intros H. apply in_map_iff in H as (idx & <- & Hin).
  now exists idx.
Qed.

Lemma exclude_ok (cs : list value) (query_id : value) (tops kept : list nat) :
  exclude cs query_id tops = Ok kept ->
  (forall idx, In idx kept ->
     In idx tops
     /\ exists d, nth idx cs VNone = VDict d
                  /\ py_eq (dict_get d "case_id" VNone) query_id = false)
  /\ (forall R : nat -> nat -> Prop, StronglySorted R tops -> StronglySorted R kept).
Proof.
  unfold exclude. intros H. apply rfilter_ok in H as [Hin Hsorted].
  split; [|exact Hsorted].
  intros idx Hidx. destruct (Hin idx Hidx) as [Htops Hkeep].
  split; [exact Htops|].
  destruct (item cs idx) as [c|e] eqn:Hc; simpl in Hkeep; [|discriminate].
  destruct c as [| | | | |d]; simpl in Hkeep; try discriminate.
  exists d. split; [now apply item_nth|].
  injection Hkeep as Hne. unfold py_ne in Hne. now apply negb_true_iff in Hne.
Qed.

Section WithSortingContract.

Hypothesis Hsort : argsort_contract argsort.

Lemma descending_sorted (sims : list Q) :
  StronglySorted (fun i j => (score_at sims j <= score_at sims i)%Q) (descending sims).
Proof.
  unfold descending. apply strongly_sorted_rev. apply (argsort_sorted _ Hsort).
Qed.

Lemma descending_in_range (sims : list Q) (idx : nat) :
  In idx (descending sims) -> idx < List.length sims.
Proof.
  unfold descending. intros H. apply in_rev in H.
  apply (Permutation_in _ (argsort_perm _ Hsort sims)) in H.
  apply in_seq in H. lia.
Qed.

End WithSortingContract.

(** What a successful [find_similar_by_text] returns. *)
Lemma find_similar_by_text_ok (w : world) (query_text : string) (topk : Z)
    (results : list (value * Q)) :
  fst (find_similar_by_text query_text topk w) = Ok results ->
  exists sims, results = ranked (cases w) sims (slice_to topk (descending sims)).
Proof.
  unfold find_similar_by_text, try_except, bind, get, raise, lift, model_encode.
  destruct (embeddings w) as [stored|]; [|discriminate].
  destruct (PyStr.is_empty query_text || PyStr.is_empty (PyStr.strip query_text));
    [discriminate|].
  destruct (encode _) as [qe|]; [|discriminate].
  destruct (similarities_of qe stored) as [sims|e]; [|discriminate].
  destruct (collect _ sims _) as [rs|e] eqn:Hcollect; [|discriminate].
  simpl. intros E. injection E as <-.
  exists sims. now apply collect_ok.
Qed.

(** What [find_similar] returns: it never raises; a result that is not
    empty is built from indices kept by the ranking, and by the exclusion
    filter when that was asked for. *)
Lemma find_similar_ok (w : world) (query_case : value) (topk : Z) (exclude_self : bool) :
  exists results,
    fst (find_similar query_case topk exclude_self w) = Ok results
    /\ (results = []
        \/ exists sims tops,
             results = ranked (cases w) sims (slice_to topk tops)
             /\ if exclude_self
                then exists query_id,
                       get_case_id query_case = Ok query_id
                       /\ exclude (cases w) query_id (descending sims) = Ok tops
                else tops = descending sims).
Proof.
  unfold find_similar, try_except, bind, get, ret, lift, model_encode.
  destruct (embeddings w) as [stored|]; [|exists []; split; [reflexivity|now left]].
  destruct (encode _) as [qe|]; [|exists []; split; [reflexivity|now left]].
  destruct (similarities_of qe stored) as [sims|e];
    [|exists []; split; [reflexivity|now left]].
  destruct exclude_self.
  - destruct (get_case_id query_case) as [query_id|e] eqn:Hid;
      [|exists []; split; [reflexivity|now left]].
    destruct (exclude _ query_id _) as [tops|e] eqn:Hex;
      [|exists []; split; [reflexivity|now left]].
    destruct (collect _ sims (slice_to topk tops)) as [rs|e] eqn:Hcollect;
      [|exists []; split; [reflexivity|now left]].
    exists rs. split; [reflexivity|]. right. exists sims, tops.
    split; [now apply collect_ok|]. now exists query_id.
  - destruct (collect _ sims (slice_to topk _)) as [rs|e] eqn:Hcollect;
      [|exists []; split; [reflexivity|now left]].
    exists rs. split; [reflexivity|]. right. exists sims, (descending sims).
    split; [now apply collect_ok|reflexivity].
Qed.

(** C3. Ranking by an existing case with [exclude_self] set never returns
    a case whose [case_id] equals the query's: every returned case is a
    mapping whose [case_id] differs from it.  In particular a query case
    with a string identifier is never among its own results, whatever its
    similarity to itself. *)
Theorem find_similar_excludes_query_id (w : world) (query : dict) (topk : Z) :
  exists results,
    fst (find_similar (VDict query) topk true w) = Ok results
    /\ Forall (has_other_id (dict_get query "case_id" VNone)) results
    /\ (forall id, dict_get query "case_id" VNone = VStr id ->
                   ~ In (VDict query) (map fst results)).
Proof.
  destruct (find_similar_ok w (VDict query) topk true) as (results & Hrun & Hshape).
  exists results. split; [exact Hrun|].
  assert (Hall : Forall (has_other_id (dict_get query "case_id" VNone)) results).
  { destruct Hshape as [->|(sims & tops & -> & query_id & Hid & Hex)]; [constructor|].
    injection Hid as <-. apply exclude_ok in Hex as [Hkept _].
    apply Forall_forall. intros r Hr.
    apply ranked_in in Hr as (idx & Hidx & ->).
    apply slice_to_incl in Hidx.
    destruct (Hkept idx Hidx) as [_ (d & Hd & Hne)].
    exists d. split; assumption. }
  split; [exact Hall|].
  intros id Hid Hin. apply in_map_iff in Hin as (r & Hfst & Hr).
  rewrite Forall_forall in Hall. destruct (Hall r Hr) as (d & Hd & Hne).
  rewrite Hfst in Hd. injection Hd as <-.
  rewrite Hid in Hne. simpl in Hne. rewrite String.eqb_refl in Hne. discriminate.
Qed.

(** C2, as the code has it.  Whenever [numpy.argsort] keeps its contract,
    both entry points return their results with scores that never
    increase, and [find_similar] always returns.  Once the model and
    [cosine_similarity] answer and the corpus has a case for every stored
    vector, the result is fixed: [find_similar_by_text], for a query that
    is not blank, returns the first [topk] indices of the reversed
    [argsort], and [find_similar] the first [topk] of those indices that
    pass the self-exclusion, when it is asked for over a corpus of
    mappings; either way each index comes with its case and with its own
    entry of the row of cosine similarities.  Nothing is promised about the
    order among equal scores. *)
Theorem ranking_descending (w : world) :
  argsort_contract argsort ->
  (forall query_text topk results,
      fst (find_similar_by_text query_text topk w) = Ok results ->
      descending_scores results)
  /\ (forall query_case topk exclude_self,
        exists results,
          fst (find_similar query_case topk exclude_self w) = Ok results
          /\ descending_scores results)
  /\ (forall query_text topk stored qe sims rest,
        embeddings w = Some stored ->
        PyStr.all_space query_text = false ->
        encode [Normalizer.normalize_legal_terms query_text] = Some qe ->
        cosine_similarity qe stored = Some (sims :: rest) ->
        List.length sims <= List.length (cases w) ->
        fst (find_similar_by_text query_text topk w)
        = Ok (ranked (cases w) sims (slice_to topk (descending sims))))
  /\ (forall query_case topk exclude_self stored qe sims rest,
        embeddings w = Some stored ->
        encode [Composer.prepare_text_for_embedding query_case] = Some qe ->
        cosine_similarity qe stored = Some (sims :: rest) ->
        List.length sims <= List.length (cases w) ->
        (exclude_self = true ->
         is_dict query_case = true /\ forallb is_dict (cases w) = true) ->
        fst (find_similar query_case topk exclude_self w)
        = Ok (ranked (cases w) sims
                (slice_to topk
                   (if exclude_self
                    then filter (fun idx =>
                                   py_ne (case_id_of (nth idx (cases w) VNone))
                                         (case_id_of query_case))
                                (descending sims)
                    else descending sims)))).
Proof.
  intros Hsort. split; [|split; [|split]].
  - intros query_text topk results Hrun.
    apply find_similar_by_text_ok in Hrun as (sims & ->).
    apply ranked_descending, slice_to_sorted, (descending_sorted Hsort).
  - intros query_case topk exclude_self.
    destruct (find_similar_ok w query_case topk exclude_self) as (rs & Hrs & Hshape).
    exists rs. split; [exact Hrs|].
    destruct Hshape as [->|(sims & tops & -> & Htops)]; [constructor|].
    apply ranked_descending, slice_to_sorted.
    destruct exclude_self.
    + destruct Htops as (query_id & _ & Hex).
      apply exclude_ok in Hex as [_ Hsorted].
      apply Hsorted, (descending_sorted Hsort).
    + subst tops. apply (descending_sorted Hsort).
  - intros query_text topk stored qe sims rest Hemb Hq Henc Hcos Hlen.
    unfold find_similar_by_text, try_except, bind, get, raise, lift, model_encode.
    rewrite Hemb, blank_query_test, Hq, Henc.
    unfold similarities_of. rewrite Hcos.
    rewrite collect_in_range; [reflexivity|].
    intros idx Hidx. apply slice_to_incl in Hidx.
    apply (descending_in_range Hsort) in Hidx. lia.
  - intros query_case topk exclude_self stored qe sims rest Hemb Henc Hcos Hlen Hmaps.
    assert (Hrange : Forall (fun idx => idx < List.length (cases w)) (descending sims)).
    { apply Forall_forall. intros idx Hidx.
      apply (descending_in_range Hsort) in Hidx. lia. }
    unfold find_similar, try_except, bind, get, ret, lift, model_encode.
    rewrite Hemb, Henc. unfold similarities_of. rewrite Hcos.
    destruct exclude_self.
    + destruct (Hmaps eq_refl) as [Hquery Hdict].
      destruct query_case as [| | | | |query]; try discriminate.
      cbn [get_case_id case_id_of]. cbv beta iota.
      rewrite (exclude_in_range _ _ _ Hdict Hrange).
      rewrite collect_in_range; [reflexivity|].
      intros idx Hidx. apply slice_to_incl in Hidx.
      apply filter_In in Hidx as [Hidx _].
      apply (descending_in_range Hsort) in Hidx. lia.
    + rewrite collect_in_range; [reflexivity|].
      intros idx Hidx. apply slice_to_incl in Hidx.
      apply (descending_in_range Hsort) in Hidx. lia.
Qed.

End Ranking.

(** ** The concrete backend keeps the sorting contract *)

Lemma toy_insert_perm (scores : list Q) (i : nat) (sorted : list nat) :
  Permutation (Toy.insert scores i sorted) (i :: sorted).
Proof.
  induction sorted as [|j rest IH]; simpl; [reflexivity|].
  destruct (Qle_bool (score_at scores i) (score_at scores j)); [reflexivity|].
  rewrite IH. apply perm_swap.
Qed.

Lemma toy_isort_perm (scores : list Q) (idxs : list nat) :
  Permutation (Toy.isort scores idxs) idxs.
Proof.
  induction idxs as [|i rest IH]; simpl; [reflexivity|].
  rewrite toy_insert_perm. now constructor.
Qed.

Lemma toy_insert_sorted (scores : list Q) (i : nat) (sorted : list nat) :
  StronglySorted (fun a b => (score_at scores a <= score_at scores b)%Q) sorted ->
  StronglySorted (fun a b => (score_at scores a <= score_at scores b)%Q)
                 (Toy.insert scores i sorted).
Proof.
  induction sorted as [|j rest IH]; simpl; intros Hs.
  - repeat constructor.
  - apply StronglySorted_inv in Hs as [Hrest Hj].
    destruct (Qle_bool (score_at scores i) (score_at scores j)) eqn:Hle.
    + apply Qle_bool_iff in Hle.
      constructor; [now constructor|].
      constructor; [exact Hle|].
      rewrite Forall_forall in *. intros x Hx.
      apply Qle_trans with (score_at scores j); [exact Hle|now apply Hj].
    + assert (Hji : (score_at scores j <= score_at scores i)%Q).
      { apply Qlt_le_weak, Qnot_le_lt. intros H.
        apply Qle_bool_iff in H. congruence. }
      constructor; [now apply IH|].
      rewrite Forall_forall in *. intros x Hx.
      apply (Permutation_in _ (toy_insert_perm scores i rest)) in Hx.
      destruct Hx as [<-|Hx]; [exact Hji|now apply Hj].
Qed.

Lemma toy_argsort_contract : argsort_contract Toy.np_argsort.
Proof.
  split; intros scores; unfold Toy.np_argsort.
  - apply toy_isort_perm.
  - induction (seq 0 (List.length scores)) as [|i rest IH]; simpl; [constructor|].
    now apply toy_insert_sorted.
Qed.

Lemma ranking_descending_witness :
  argsort_contract (@argsort Toy.backend)
  /\ descending_scores
       [(Scenario.case_B, 1%Q); (Scenario.case_A, 1%Q); (Scenario.case_C, 0%Q)].
Proof.
  split; [exact toy_argsort_contract|].
  destruct (@ranking_descending Toy.backend
              (Scenario.ready (Some [[1; 0]; [1; 0]; [0; 1]]%Q))
              toy_argsort_contract) as [Htext _].
  apply (Htext "murder under section 302" 3%Z). vm_compute. reflexivity.
Defined.

(** C2 as stated fails on the specification's own scenario: A and B tie
    and the later one, B, is returned first, because the ascending
    [argsort] is reversed as a whole. *)
Lemma ties_come_in_reverse_corpus_order :
  fst (@find_similar_by_text Toy.backend "murder under section 302" 3
         (Scenario.ready (Some [[1; 0]; [1; 0]; [0; 1]]%Q)))
  = Ok [(Scenario.case_B, 1%Q); (Scenario.case_A, 1%Q); (Scenario.case_C, 0%Q)]
  /\ ~ ties_in_corpus_order Scenario.corpus
         [(Scenario.case_B, 1%Q); (Scenario.case_A, 1%Q); (Scenario.case_C, 0%Q)].
Proof.
  split; [vm_compute; reflexivity|].
  intros Hties.
  destruct (Hties 0 1 Scenario.case_B 1%Q Scenario.case_A 1%Q eq_refl eq_refl)
    as (a & b & Ha & Hb & Hab); [lia|reflexivity|].
  destruct b as [|[|[|b]]]; simpl in Hb; try discriminate; try lia.
  destruct b; discriminate.
Qed.

(** The scenario for C3: A is its own best match and is left out. *)
Example find_similar_leaves_out_the_query :
  fst (@find_similar Toy.backend Scenario.case_A 5 true
         (Scenario.ready (Some [[1; 0]; [1; 0]; [0; 1]]%Q)))
  = Ok [(Scenario.case_B, 1%Q); (Scenario.case_C, 0%Q)]
  /\ fst (@find_similar Toy.backend Scenario.case_A 5 false
            (Scenario.ready (Some [[1; 0]; [1; 0]; [0; 1]]%Q)))
     = Ok [(Scenario.case_B, 1%Q); (Scenario.case_A, 1%Q); (Scenario.case_C, 0%Q)].
Proof. split; vm_compute; reflexivity. Qed.

(** ** The model at work *)

Example normalize_abbreviations :
  Normalizer.normalize_legal_terms "A. B. C and I.T. under Section 302A of the indian penal code"
  = "ABC and IT. under 302A of the IPC".
Proof. vm_compute. reflexivity. Qed.

Example normalize_section_needs_number :
  Normalizer.normalize_legal_terms "Section 302ab, section twelve, Sections 5"
  = "Section 302ab, section twelve, Sections 5".
Proof. vm_compute. reflexivity. Qed.

Example compose_murder_case :
  Composer.prepare_text_for_embedding
    (VDict [("case_id", VStr "A"); ("summary", VStr "murder under Section 302");
            ("acts_referred", VList [VStr "Indian Penal Code"; VStr " "; VNone]);
            ("case_type", VStr "Criminal"); ("court", VStr "Unknown")])
  = "murder under 302 murder under 302 murder under 302 IPC IPC Type: Criminal Court: Unknown".
Proof. vm_compute. reflexivity. Qed.

Example compose_nothing :
  Composer.prepare_text_for_embedding (VDict [("case_id", VInt 7); ("facts", VStr "Unknown")])
  = "Case 7 - No extractable text".
Proof. vm_compute. reflexivity. Qed.

(** * Further properties of the finder *)

(** ** Queries leave the finder alone *)

Section ReadOnlyQueries.

Context {B : Backend}.

Lemma same_finder_refl (w : world) : same_finder_and_files w w.
Proof. repeat split. Qed.

Lemma same_finder_log (w : world) (texts : list string) :
  same_finder_and_files w (log_encode texts w).
Proof. repeat split. Qed.

(** X1. Neither entry point changes the corpus, the matrix or a file: all a
    query leaves behind is at most one call to the model, with one text,
    the normalised query or the composite of the query case. *)
Theorem queries_are_read_only (w : world) :
  (forall query_text topk,
      same_finder_and_files w (snd (find_similar_by_text query_text topk w))
      /\ (encoded (snd (find_similar_by_text query_text topk w)) = encoded w
          \/ encoded (snd (find_similar_by_text query_text topk w))
             = encoded w ++ [[Normalizer.normalize_legal_terms query_text]]))
  /\ (forall query_case topk exclude_self,
        same_finder_and_files w (snd (find_similar query_case topk exclude_self w))
        /\ (encoded (snd (find_similar query_case topk exclude_self w)) = encoded w
            \/ encoded (snd (find_similar query_case topk exclude_self w))
               = encoded w ++ [[Composer.prepare_text_for_embedding query_case]])).
Proof.
  split.
  - intros query_text topk.
    unfold find_similar_by_text, try_except, bind, get, raise, lift, model_encode.
    destruct (embeddings w) as [stored|];
      [|split; [apply same_finder_refl|now left]].
    destruct (PyStr.is_empty query_text || PyStr.is_empty (PyStr.strip query_text));
      [split; [apply same_finder_refl|now left]|].
    destruct (encode _) as [qe|]; [|split; [apply same_finder_log|now right]].
    destruct (similarities_of qe stored) as [sims|e];
      [|split; [apply same_finder_log|now right]].
    destruct (collect _ sims _) as [rs|e];
      split; solve [apply same_finder_log|now right].
  - intros query_case topk exclude_self.
    unfold find_similar, try_except, bind, get, ret, lift, model_encode.
    destruct (embeddings w) as [stored|];
      [|split; [apply same_finder_refl|now left]].
    destruct (encode _) as [qe|]; [|split; [apply same_finder_log|now right]].
    destruct (similarities_of qe stored) as [sims|e];
      [|split; [apply same_finder_log|now right]].
    destruct exclude_self.
    + destruct (get_case_id query_case) as [query_id|e];
        [|split; [apply same_finder_log|now right]].
      destruct (exclude _ query_id _) as [tops|e];
        [|split; [apply same_finder_log|now right]].
      destruct (collect _ sims _) as [rs|e];
        split; solve [apply same_finder_log|now right].
    + destruct (collect _ sims _) as [rs|e];
        split; solve [apply same_finder_log|now right].
Qed.

End ReadOnlyQueries.

(** ** Starting a finder *)

Section Startup.

Context {B : Backend}.

Lemma compute_embeddings_run (w : world) (c : value) (cs : list value) :
  cases w = c :: cs ->
  compute_embeddings w
  = match encode (texts_to_embed (c :: cs)) with
    | Some m =>
        (Ok tt, set_embeddings (Some m) (log_encode (texts_to_embed (c :: cs)) w))
    | None =>
        (Raise BackendFailure,
         set_embeddings None (log_encode (texts_to_embed (c :: cs)) w))
    end.
Proof.
  intros Hc. unfold compute_embeddings, try_except, bind, get, model_encode.
  rewrite Hc. fold (texts_to_embed (c :: cs)).
  destruct (encode (texts_to_embed (c :: cs))); reflexivity.
Qed.

Lemma new_finder_unfold (model_name : string) (w : world) :
  new_finder model_name w
  = load_or_compute_embeddings (set_cases (loaded_corpus w) (blank_finder w)).
Proof.
  unfold new_finder, init, bind at 1, modify, bind at 1.
  rewrite load_cases_run. reflexivity.
Qed.

Lemma recompute_when_unreadable (w : world) :
  (forall cache, cache_file w <> Some (Pickled cache)) ->
  load_or_compute_embeddings w
  = bind compute_embeddings (fun _ => save_embeddings) w.
Proof.
  intros Hno. unfold load_or_compute_embeddings, bind at 1, get.
  destruct (cache_file w) as [[cache|]|]; [|reflexivity|reflexivity].
  exfalso. now apply (Hno cache).
Qed.

Lemma cold_start_run (model_name : string) (w : world)
    (c : value) (cs : list value) (m : matrix) :
  (forall cache, cache_file w <> Some (Pickled cache)) ->
  judgments_file w = Some (c :: cs) ->
  encode (texts_to_embed (c :: cs)) = Some m ->
  new_finder model_name w
  = (Ok tt,
     World (c :: cs) (Some m) (device w) (judgments_file w)
           (if disk_writable w
            then Some (Pickled (CacheRecord m saved_model_name
                                  (List.length (hd [] m))
                                  (List.length (c :: cs)) (device w)))
            else cache_file w)
           (disk_writable w)
           (encoded w ++ [texts_to_embed (c :: cs)])).
Proof.
  intros Hno Hfile Henc. rewrite new_finder_unfold.
  unfold loaded_corpus. rewrite Hfile.
  rewrite recompute_when_unreadable by exact Hno.
  unfold bind.
  rewrite (compute_embeddings_run (set_cases (c :: cs) (blank_finder w)) c cs eq_refl).
  rewrite Henc.
  unfold save_embeddings, bind, get, modify, ret. simpl.
  unfold set_cache_file, set_embeddings, log_encode, set_cases, blank_finder.
  simpl. rewrite ?Hfile. destruct (disk_writable w); reflexivity.
Qed.

(** X2. A cold start.  Without a cache that loads, a finder built over a
    corpus with at least one case embeds every case in one call to the
    model and keeps the matrix; when the cache file can be written it then
    holds that matrix, the hard-coded model name, the width of the first
    row, the length of the corpus and the device. *)
Theorem cold_start_embeds_and_saves (model_name : string) (w : world)
    (c : value) (cs : list value) (m : matrix) :
  (forall cache, cache_file w <> Some (Pickled cache)) ->
  judgments_file w = Some (c :: cs) ->
  encode (texts_to_embed (c :: cs)) = Some m ->
  disk_writable w = true ->
  new_finder model_name w
  = (Ok tt,
     World (c :: cs) (Some m) (device w) (judgments_file w)
           (Some (Pickled (CacheRecord m saved_model_name
                             (List.length (hd [] m))
                             (List.length (c :: cs)) (device w))))
           true
           (encoded w ++ [texts_to_embed (c :: cs)])).
Proof.
  intros Hno Hfile Henc Hdisk.
  rewrite (cold_start_run model_name w c cs m Hno Hfile Henc).
  now rewrite Hdisk.
Qed.

(** X3. A failing model.  When the model raises during a cold start the
    exception leaves the constructor, the finder holds no matrix and the
    cache file is not written. *)
Theorem failed_embedding_writes_no_cache (model_name : string) (w : world)
    (c : value) (cs : list value) :
  (forall cache, cache_file w <> Some (Pickled cache)) ->
  judgments_file w = Some (c :: cs) ->
  encode (texts_to_embed (c :: cs)) = None ->
  new_finder model_name w
  = (Raise BackendFailure,
     World (c :: cs) None (device w) (judgments_file w) (cache_file w)
           (disk_writable w) (encoded w ++ [texts_to_embed (c :: cs)])).
Proof.
  intros Hno Hfile Henc. rewrite new_finder_unfold.
  unfold loaded_corpus. rewrite Hfile.
  rewrite recompute_when_unreadable by exact Hno.
  unfold bind.
  rewrite (compute_embeddings_run (set_cases (c :: cs) (blank_finder w)) c cs eq_refl).
  rewrite Henc.
  unfold set_embeddings, log_encode, set_cases, blank_finder.
  simpl. rewrite ?Hfile. reflexivity.
Qed.

(** X4. No corpus and no cache.  When the corpus file is missing,
    unreadable or empty and there is no cache file, the constructor returns
    without calling the model or writing a file, and the finder it leaves
    answers every text query with [CacheUnavailable] and every case query
    with an empty list. *)
Theorem empty_corpus_starts_without_embeddings (model_name : string) (w : world) :
  cache_file w = None ->
  loaded_corpus w = [] ->
  new_finder model_name w = (Ok tt, blank_finder w)
  /\ (forall query_text topk,
        find_similar_by_text query_text topk (blank_finder w)
        = (Raise CacheUnavailable, blank_finder w))
  /\ (forall query_case topk exclude_self,
        find_similar query_case topk exclude_self (blank_finder w)
        = (Ok [], blank_finder w)).
Proof.
  intros Hno Hempty. split.
  - rewrite new_finder_unfold, Hempty.
    rewrite recompute_when_unreadable by (intros cache; simpl; now rewrite Hno).
    reflexivity.
  - split; intros.
    + reflexivity.
    + reflexivity.
Qed.

(** X5. Save, then load.  A finder restarted after a cold start that could
    write its cache comes back in exactly the state the first one left:
    same corpus, same matrix, same files, and no further call to the
    model. *)
Theorem restart_reuses_saved_cache (model_name again : string) (w : world)
    (c : value) (cs : list value) (m : matrix) :
  (forall cache, cache_file w <> Some (Pickled cache)) ->
  judgments_file w = Some (c :: cs) ->
  encode (texts_to_embed (c :: cs)) = Some m ->
  disk_writable w = true ->
  new_finder again (snd (new_finder model_name w))
  = (Ok tt, snd (new_finder model_name w)).
Proof.
  intros Hno Hfile Henc Hdisk.
  rewrite (cold_start_run model_name w c cs m Hno Hfile Henc).
  rewrite Hdisk. simpl. rewrite new_finder_unfold.
  unfold loaded_corpus. simpl. rewrite Hfile. reflexivity.
Qed.

End Startup.

(** ** What a ranking can contain *)

Lemma nodup_strongly_sorted {A : Type} (l : list A) :
  NoDup l <-> StronglySorted (fun a b => a <> b) l.
Proof.
  induction l as [|x l IH]; split; intros H; try constructor.
  - apply IH. now inversion H.
  - inversion H as [|? ? Hx Hl]; subst.
    apply Forall_forall. intros y Hy ->. contradiction.
  - apply StronglySorted_inv in H as [_ Hx].
    rewrite Forall_forall in Hx. intros Hin. now apply (Hx x Hin).
  - apply IH. now apply StronglySorted_inv in H.
Qed.

Lemma slice_to_length {A : Type} (k : Z) (l : list A) :
  List.length (slice_to k l) = slice_length k (List.length l).
Proof.
  unfold slice_to, slice_length. destruct (0 <=? k)%Z; rewrite length_firstn; lia.
Qed.

Lemma slice_to_all {A : Type} (k : Z) (l : list A) :
  (Z.of_nat (List.length l) <= k)%Z -> slice_to k l = l.
Proof.
  intros Hk. unfold slice_to.
  destruct (0 <=? k)%Z eqn:Hpos; [|apply Z.leb_gt in Hpos; lia].
  apply firstn_all2. lia.
Qed.

Lemma nth_over_seq {A : Type} (l : list A) (d : A) :
  map (fun i => nth i l d) (seq 0 (List.length l)) = l.
Proof.
  induction l as [|x l IH]; [reflexivity|].
  simpl. f_equal. rewrite <- seq_shift, map_map. exact IH.
Qed.

Lemma collect_inv (cs : list value) (sims : list Q) (idxs : list nat)
    (results : list (value * Q)) :
  collect cs sims idxs = Ok results ->
  Forall (fun idx => idx < List.length cs /\ idx < List.length sims) idxs.
Proof.
  unfold collect. revert results.
  induction idxs as [|idx idxs IH]; simpl; intros results H; [constructor|].
  unfold item at 1 in H.
  destruct (nth_error cs idx) as [c|] eqn:Hc; simpl in H; [|discriminate].
  unfold item at 1 in H.
  destruct (nth_error sims idx) as [s|] eqn:Hs; simpl in H; [|discriminate].
  match type of H with
  | rbind ?r _ = _ => destruct r as [ys|e] eqn:Hrest; simpl in H; [|discriminate]
  end.
  constructor; [|now apply (IH ys)].
  split; apply nth_error_Some; congruence.
Qed.

Lemma collect_fails_out_of_range (cs : list value) (sims : list Q) (idxs : list nat) :
  (exists idx, In idx idxs /\ List.length cs <= idx) ->
  collect cs sims idxs = Raise IndexError.
Proof.
  unfold collect. induction idxs as [|idx idxs IH]; intros (bad & Hin & Hbad).
  - destruct Hin.
  - simpl. unfold item at 1.
    destruct (nth_error cs idx) as [c|] eqn:Hc; simpl; [|reflexivity].
    unfold item at 1.
    destruct (nth_error sims idx) as [s|] eqn:Hs; simpl; [|reflexivity].
    rewrite IH; [reflexivity|].
    destruct Hin as [<-|Hin]; [|now exists bad].
    exfalso. assert (idx < List.length cs) by (apply nth_error_Some; congruence). lia.
Qed.

Lemma exclude_inv (cs : list value) (query_id : value) (tops kept : list nat) :
  exclude cs query_id tops = Ok kept ->
  Forall (fun idx => idx < List.length cs) tops.
Proof.
  unfold exclude. revert kept.
  induction tops as [|idx tops IH]; simpl; intros kept H; [constructor|].
  unfold item at 1 in H.
  destruct (nth_error cs idx) as [c|] eqn:Hc; simpl in H; [|discriminate].
  destruct (get_case_id c) as [cid|e]; simpl in H; [|discriminate].
  match type of H with
  | rbind ?r _ = _ => destruct r as [ys|e] eqn:Hrest; simpl in H; [|discriminate]
  end.
  constructor; [|now apply (IH ys)].
  apply nth_error_Some. congruence.
Qed.

Section RankingContents.

Context {B : Backend}.

Hypothesis Hsort : argsort_contract argsort.

Lemma descending_nodup (sims : list Q) : NoDup (descending sims).
Proof.
  unfold descending. apply NoDup_rev.
  apply (Permutation_NoDup (Permutation_sym (argsort_perm _ Hsort sims))).
  apply seq_NoDup.
Qed.

Lemma descending_length (sims : list Q) :
  List.length (descending sims) = List.length sims.
Proof.
  unfold descending. rewrite length_rev.
  rewrite (Permutation_length (argsort_perm _ Hsort sims)). apply length_seq.
Qed.

Lemma descending_perm (sims : list Q) :
  Permutation (descending sims) (seq 0 (List.length sims)).
Proof.
  unfold descending. rewrite <- Permutation_rev. apply (argsort_perm _ Hsort).
Qed.

Lemma slice_to_nodup (k : Z) (l : list nat) : NoDup l -> NoDup (slice_to k l).
Proof.
  intros H. apply nodup_strongly_sorted. apply slice_to_sorted.
  now apply nodup_strongly_sorted.
Qed.

Lemma find_similar_by_text_drawn (w : world) (query_text : string) (topk : Z)
    (results : list (value * Q)) :
  fst (find_similar_by_text query_text topk w) = Ok results ->
  drawn w (Normalizer.normalize_legal_terms query_text) topk results.
Proof.
  unfold find_similar_by_text, try_except, bind, get, raise, lift, model_encode.
  destruct (embeddings w) as [stored|] eqn:Hemb; [|discriminate].
  destruct (PyStr.is_empty query_text || PyStr.is_empty (PyStr.strip query_text));
    [discriminate|].
  destruct (encode _) as [qe|] eqn:Henc; [|discriminate].
  unfold similarities_of.
  destruct (cosine_similarity qe stored) as [[|sims rest]|] eqn:Hcos;
    try discriminate.
  destruct (collect _ sims _) as [rs|e] eqn:Hcollect; [|discriminate].
  simpl. intros E. injection E as <-.
  exists stored, qe, sims, rest, (slice_to topk (descending sims)).
  split; [exact Hemb|]. split; [exact Henc|]. split; [exact Hcos|].
  split; [now apply collect_ok|].
  split; [apply slice_to_nodup, descending_nodup|].
  split; [now apply (collect_inv _ _ _ rs)|].
  rewrite slice_to_length, descending_length. lia.
Qed.

Lemma slice_length_mono (k : Z) (n n' : nat) :
  n <= n' -> slice_length k n <= slice_length k n'.
Proof.
  intros H. unfold slice_length. destruct (0 <=? k)%Z; lia.
Qed.

Lemma find_similar_drawn (w : world) (query_case : value) (topk : Z)
    (exclude_self : bool) :
  exists results,
    fst (find_similar query_case topk exclude_self w) = Ok results
    /\ (results = []
        \/ drawn w (Composer.prepare_text_for_embedding query_case) topk results).
Proof.
  unfold find_similar, try_except, bind, get, ret, lift, model_encode.
  destruct (embeddings w) as [stored|] eqn:Hemb;
    [|exists []; split; [reflexivity|now left]].
  destruct (encode _) as [qe|] eqn:Henc;
    [|exists []; split; [reflexivity|now left]].
  unfold similarities_of.
  destruct (cosine_similarity qe stored) as [[|sims rest]|] eqn:Hcos;
    try (exists []; split; [reflexivity|now left]).
  destruct exclude_self.
  - destruct (get_case_id query_case) as [query_id|e] eqn:Hid;
      [|exists []; split; [reflexivity|now left]].
    destruct (exclude _ query_id _) as [tops|e] eqn:Hex;
      [|exists []; split; [reflexivity|now left]].
    destruct (collect _ sims (slice_to topk tops)) as [rs|e] eqn:Hcollect;
      [|exists []; split; [reflexivity|now left]].
    exists rs. split; [reflexivity|]. right.
    apply exclude_ok in Hex as [Hkept Hsorted].
    assert (Hnodup : NoDup tops).
    { apply nodup_strongly_sorted, Hsorted, nodup_strongly_sorted, descending_nodup. }
    exists stored, qe, sims, rest, (slice_to topk tops).
    split; [exact Hemb|]. split; [exact Henc|]. split; [exact Hcos|].
    split; [now apply collect_ok|].
    split; [now apply slice_to_nodup|].
    split; [now apply (collect_inv _ _ _ rs)|].
    rewrite slice_to_length. apply slice_length_mono.
    rewrite <- (descending_length sims).
    apply NoDup_incl_length; [exact Hnodup|].
    intros idx Hidx. now apply Hkept.
  - destruct (collect _ sims (slice_to topk _)) as [rs|e] eqn:Hcollect;
      [|exists []; split; [reflexivity|now left]].
    exists rs. split; [reflexivity|]. right.
    exists stored, qe, sims, rest, (slice_to topk (descending sims)).
    split; [exact Hemb|]. split; [exact Henc|]. split; [exact Hcos|].
    split; [now apply collect_ok|].
    split; [apply slice_to_nodup, descending_nodup|].
    split; [now apply (collect_inv _ _ _ rs)|].
    rewrite slice_to_length, descending_length. lia.
Qed.

End RankingContents.

Lemma drawn_lengths {B : Backend} (w : world) (text : string) (topk : Z)
    (results : list (value * Q)) :
  drawn w text topk results ->
  List.length results <= List.length (cases w)
  /\ ((0 <= topk)%Z -> List.length results <= Z.to_nat topk).
Proof.
  intros (stored & qe & sims & rest & idxs & _ & _ & _ & -> & Hnodup & Hrange & Hlen).
  unfold ranked. rewrite length_map. split.
  - rewrite <- (length_seq (List.length (cases w)) 0).
    apply NoDup_incl_length; [exact Hnodup|].
    intros idx Hidx. rewrite Forall_forall in Hrange.
    apply in_seq. destruct (Hrange idx Hidx). lia.
  - intros Hk. unfold slice_length in Hlen.
    destruct (0 <=? topk)%Z eqn:E; [lia|]. apply Z.leb_gt in E. lia.
Qed.

Section RankingBounds.

Context {B : Backend}.

(** X6. What a ranking contains.  Whenever [numpy.argsort] keeps its
    contract, the results of either entry point are drawn from the row of
    scores that [cosine_similarity] returned for the vector of the query
    (the normalised query text, or the composite of the query case)
    against the stored matrix: cases of the corpus at pairwise distinct
    positions that the row covers too, each with the entry of the row at
    its own position; so there are never more results than cases, nor more
    than [topk] when [topk] is not negative.  [find_similar] always
    returns, with an empty list when it has no such row. *)
Theorem rankings_pick_distinct_positions (w : world) :
  argsort_contract argsort ->
  (forall query_text topk results,
      fst (find_similar_by_text query_text topk w) = Ok results ->
      drawn w (Normalizer.normalize_legal_terms query_text) topk results
      /\ List.length results <= List.length (cases w)
      /\ ((0 <= topk)%Z -> List.length results <= Z.to_nat topk))
  /\ (forall query_case topk exclude_self,
        exists results,
          fst (find_similar query_case topk exclude_self w) = Ok results
          /\ (results = []
              \/ drawn w (Composer.prepare_text_for_embedding query_case) topk results)
          /\ List.length results <= List.length (cases w)
          /\ ((0 <= topk)%Z -> List.length results <= Z.to_nat topk)).
Proof.
  intros Hsort. split.
  - intros query_text topk results Hrun.
    apply (find_similar_by_text_drawn Hsort) in Hrun.
    split; [exact Hrun|]. exact (drawn_lengths w _ topk results Hrun).
  - intros query_case topk exclude_self.
    destruct (find_similar_drawn Hsort w query_case topk exclude_self)
      as (results & Hrun & Hdrawn).
    exists results. split; [exact Hrun|]. split; [exact Hdrawn|].
    destruct Hdrawn as [->|Hdrawn]; [|exact (drawn_lengths w _ topk results Hdrawn)].
    simpl. split; intros; lia.
Qed.

(** X7. The whole corpus.  When [topk] is at least the number of stored
    vectors and the corpus has exactly one case per vector, a text query
    that the model and [cosine_similarity] answer returns every case of the
    corpus once. *)
Theorem large_topk_returns_whole_corpus (w : world) (query_text : string) (topk : Z)
    (stored qe : matrix) (sims : list Q) (rest : matrix) :
  argsort_contract argsort ->
  embeddings w = Some stored ->
  PyStr.all_space query_text = false ->
  encode [Normalizer.normalize_legal_terms query_text] = Some qe ->
  cosine_similarity qe stored = Some (sims :: rest) ->
  List.length sims = List.length (cases w) ->
  (Z.of_nat (List.length sims) <= topk)%Z ->
  exists results,
    fst (find_similar_by_text query_text topk w) = Ok results
    /\ Permutation (map fst results) (cases w)
    /\ List.length results = List.length (cases w).
Proof.
  intros Hsort Hemb Hq Henc Hcos Hlen Hk.
  assert (Hall : slice_to topk (descending sims) = descending sims).
  { apply slice_to_all. now rewrite (descending_length Hsort). }
  exists (ranked (cases w) sims (descending sims)).
  assert (Hperm : Permutation (map fst (ranked (cases w) sims (descending sims)))
                              (cases w)).
  { unfold ranked. rewrite map_map. simpl.
    rewrite (Permutation_map _ (descending_perm Hsort sims)).
    rewrite Hlen. now rewrite nth_over_seq. }
  split; [|split; [exact Hperm|]].
  - unfold find_similar_by_text, try_except, bind, get, raise, lift, model_encode.
    rewrite Hemb, blank_query_test, Hq, Henc.
    unfold similarities_of. rewrite Hcos, Hall.
    rewrite collect_in_range; [reflexivity|].
    intros idx Hidx. apply (descending_in_range Hsort) in Hidx. lia.
  - rewrite <- (Permutation_length Hperm). now rewrite length_map.
Qed.

(** X8. A matrix longer than the corpus.  When the stored matrix has more
    rows than the corpus has cases, a text query whose [topk] reaches all
    rows raises [IndexError], and a query by case with self-exclusion,
    which looks up every row's case, returns the empty list. *)
Theorem longer_matrix_breaks_ranking (w : world) (stored : matrix) :
  argsort_contract argsort ->
  embeddings w = Some stored ->
  (forall qe sims rest,
      cosine_similarity qe stored = Some (sims :: rest) ->
      List.length (cases w) < List.length sims) ->
  (forall query_text topk qe sims rest,
      PyStr.all_space query_text = false ->
      encode [Normalizer.normalize_legal_terms query_text] = Some qe ->
      cosine_similarity qe stored = Some (sims :: rest) ->
      (Z.of_nat (List.length sims) <= topk)%Z ->
      fst (find_similar_by_text query_text topk w) = Raise IndexError)
  /\ (forall query_case topk,
        fst (find_similar query_case topk true w) = Ok []).
Proof.
  intros Hsort Hemb Hlong. split.
  - intros query_text topk qe sims rest Hq Henc Hcos Hk.
    unfold find_similar_by_text, try_except, bind, get, raise, lift, model_encode.
    rewrite Hemb, blank_query_test, Hq, Henc.
    unfold similarities_of. rewrite Hcos.
    rewrite slice_to_all by now rewrite (descending_length Hsort).
    rewrite collect_fails_out_of_range; [reflexivity|].
    exists (List.length (cases w)). split; [|lia].
    apply (Permutation_in _ (Permutation_sym (descending_perm Hsort sims))).
    apply in_seq. specialize (Hlong qe sims rest Hcos). lia.
  - intros query_case topk.
    unfold find_similar, try_except, bind, get, ret, lift, model_encode.
    rewrite Hemb.
    destruct (encode _) as [qe|]; [|reflexivity].
    unfold similarities_of.
    destruct (cosine_similarity qe stored) as [[|sims rest]|] eqn:Hcos;
      try reflexivity.
    destruct (get_case_id query_case) as [query_id|e]; [|reflexivity].
    destruct (exclude _ query_id _) as [tops|e] eqn:Hex; [|reflexivity].
    exfalso. apply exclude_inv in Hex. rewrite Forall_forall in Hex.
    specialize (Hlong qe sims rest Hcos).
    assert (Hin : In (List.length (cases w)) (descending sims)).
    { apply (Permutation_in _ (Permutation_sym (descending_perm Hsort sims))).
      apply in_seq. lia. }
    apply Hex in Hin. lia.
Qed.

End RankingBounds.

(** ** What the composer hands to the model *)

Lemma prepare_text_visible (case : value) :
  PyStr.all_space (Composer.prepare_text_for_embedding case) = false.
Proof.
  destruct case as [| | | | |[|e d]]; try reflexivity.
  rewrite prepare_text_nonempty_dict.
  destruct (PyStr.all_space (PyStr.take _ _)) eqn:Hcut; [reflexivity|exact Hcut].
Qed.

(** X11. The composer never returns an empty or all-whitespace text, whatever
    it is given; so the replacement of blank texts by "Empty case" in
    [compute_embeddings] never fires, and the model receives exactly the
    composites of the cases, in corpus order. *)
Theorem composite_is_never_blank :
  (forall case, PyStr.nonblank (Composer.prepare_text_for_embedding case) = true)
  /\ (forall cs, texts_to_embed cs = map Composer.prepare_text_for_embedding cs).
Proof.
  assert (H : forall case,
             PyStr.nonblank (Composer.prepare_text_for_embedding case) = true).
  { intros case. rewrite nonblank_spec, prepare_text_visible. reflexivity. }
  split; [exact H|].
  intros cs. unfold texts_to_embed. rewrite map_map.
  apply map_ext. intros case. now rewrite H.
Qed.

(** X12. The normaliser never lengthens a text. *)
Theorem normalize_never_lengthens (text : string) :
  String.length (Normalizer.normalize_legal_terms text) <= String.length text.
Proof. apply normalize_length. Qed.

(** ** The normaliser keeps blank texts blank and visible texts visible *)

Lemma space_is_not_word (c : ascii) :
  PyStr.isspace c = true -> PyStr.isword c = false.
Proof.
  destruct c as [[] [] [] [] [] [] [] []]; vm_compute; congruence.
Qed.

Lemma class_is_visible (ic : bool) (k : Re.cls) (x : ascii) :
  k <> Re.Space -> Re.cls_matches ic k x = true -> PyStr.isspace x = false.
Proof.
  intros Hk. destruct k; [congruence| |];
    destruct ic, x as [[] [] [] [] [] [] [] []]; vm_compute; congruence.
Qed.

Lemma all_space_append (a b : string) :
  PyStr.all_space (a +++ b) = PyStr.all_space a && PyStr.all_space b.
Proof.
  induction a as [|c a IH]; simpl; [reflexivity|].
  rewrite IH. now rewrite andb_assoc.
Qed.

Section FirstGroup.

Import Re ReShape.

Variable ic : bool.

Lemma state_in_step (ph : phase) (x : ascii) (r : string) (m : mstate) :
  ph = Before \/ ph = Within \/ ph = After ->
  state_in ph (String x r) m -> state_in ph r m.
Proof.
  intros [->|[->| ->]]; simpl; auto.
  intros (y & r0 & Ho & Hy & Hg & Hlen). exists y, r0. repeat split; auto.
  simpl in Hlen. lia.
Qed.

Lemma head_visible_close (s : string) (m : mstate) :
  head_visible (groups m) -> head_visible (groups (close_group s m)).
Proof.
  intros (x & g & more & Hg & Hx). unfold close_group.
  destruct (opened m) as [|s0 os]; simpl; [now exists x, g, more|].
  rewrite Hg. simpl. now exists x, g, (more ++ [PyStr.take (String.length s0 - String.length s) s0]).
Qed.

Lemma match_here_first_group (p : pattern) :
  forall ph prev s m m' rest,
    opens_visibly ph p = true ->
    state_in ph s m ->
    match_here ic p prev s m = Some (m', rest) ->
    head_visible (groups m').
Proof.
  induction p as [|a p IH]; intros ph prev s m m' rest Hshape Hst H.
  - simpl in H. injection H as <- _. destruct ph; try discriminate. exact Hst.
  - assert (Hgreedy : forall k ph' prev' s' m0,
               ph' = Before \/ ph' = Within \/ ph' = After ->
               opens_visibly ph' p = true ->
               state_in ph' s' m0 ->
               greedy ic k (match_here ic p) prev' s' m0 = Some (m', rest) ->
               head_visible (groups m')).
    { intros k ph' prev' s' m0 Hph Hp Hs Hg.
      refine (greedy_inv ic
                (fun s0 m1 res => res = (m', rest) -> state_in ph' s0 m1 ->
                                  head_visible (groups m'))
                k (match_here ic p) _ _ s' prev' m0 (m', rest) Hg eq_refl Hs).
      - intros prev0 s0 m1 res Hm -> Hs0. now apply (IH ph' prev0 s0 m1 m' rest).
      - intros x r m1 res Hq -> Hs0. apply Hq; [reflexivity|].
        now apply (state_in_step ph' x r m1). }
    destruct a; simpl in H.
    + (* Lit *)
      destruct s as [|x r]; [discriminate|].
      destruct (lit_matches ic c x); [|discriminate].
      destruct ph; simpl in Hshape; try discriminate.
      * apply (IH Before (Some x) r m m' rest); auto.
      * apply (IH Within (Some x) r m m' rest); auto.
        apply (state_in_step Within x r m); auto.
      * apply (IH After (Some x) r m m' rest); auto.
    + (* One *)
      destruct s as [|x r]; [discriminate|].
      destruct (cls_matches ic k x) eqn:Hx; [|discriminate].
      destruct ph; simpl in Hshape.
      * apply (IH Before (Some x) r m m' rest); auto.
      * assert (Hk : k <> Space) by (destruct k; [discriminate|congruence|congruence]).
        assert (Hp : opens_visibly Within p = true) by (destruct k; [discriminate|auto|auto]).
        apply (IH Within (Some x) r m m' rest); auto.
        destruct Hst as [Ho Hg]. exists x, r. repeat split; auto.
        now apply (class_is_visible ic k x).
      * apply (IH Within (Some x) r m m' rest); auto.
        apply (state_in_step Within x r m); auto.
      * apply (IH After (Some x) r m m' rest); auto.
    + (* Star *)
      destruct ph; simpl in Hshape; try discriminate.
      * apply (Hgreedy k Before prev s m); auto.
      * apply (Hgreedy k Within prev s m); auto.
      * apply (Hgreedy k After prev s m); auto.
    + (* Plus *)
      destruct s as [|x r]; [discriminate|].
      destruct (cls_matches ic k x) eqn:Hx; [|discriminate].
      destruct ph; simpl in Hshape.
      * apply (Hgreedy k Before (Some x) r m); auto.
      * assert (Hk : k <> Space) by (destruct k; [discriminate|congruence|congruence]).
        assert (Hp : opens_visibly Within p = true) by (destruct k; [discriminate|auto|auto]).
        apply (Hgreedy k Within (Some x) r m); auto.
        destruct Hst as [Ho Hg]. exists x, r. repeat split; auto.
        now apply (class_is_visible ic k x).
      * apply (Hgreedy k Within (Some x) r m); auto.
        apply (state_in_step Within x r m); auto.
      * apply (Hgreedy k After (Some x) r m); auto.
    + (* Opt *)
      assert (Hskip : forall ph', ph' = Before \/ ph' = Within \/ ph' = After ->
                 opens_visibly ph' p = true -> state_in ph' s m ->
                 head_visible (groups m')).
      { intros ph' Hph Hp Hs.
        destruct s as [|x r]; [now apply (IH ph' prev EmptyString m m' rest)|].
        destruct (cls_matches ic k x); [|now apply (IH ph' prev (String x r) m m' rest)].
        destruct (match_here ic p (Some x) r m) as [res|] eqn:Hm.
        - injection H as ->. apply (IH ph' (Some x) r m m' rest); auto.
          now apply (state_in_step ph' x r m).
        - now apply (IH ph' prev (String x r) m m' rest). }
      destruct ph; simpl in Hshape; try discriminate.
      * apply (Hskip Before); auto.
      * apply (Hskip Within); auto.
      * apply (Hskip After); auto.
    + (* Boundary *)
      destruct (at_boundary prev s); [|discriminate].
      destruct ph; simpl in Hshape; try discriminate.
      * apply (IH Before prev s m m' rest); auto.
      * apply (IH Within prev s m m' rest); auto.
      * apply (IH After prev s m m' rest); auto.
    + (* Open *)
      destruct ph; simpl in Hshape; try discriminate.
      * apply (IH Opening prev s (open_group s m) m' rest); auto.
        destruct Hst as [Ho Hg]. unfold open_group. simpl. rewrite Ho, Hg. now split.
      * apply (IH After prev s (open_group s m) m' rest); auto.
    + (* Close *)
      destruct ph; simpl in Hshape; try discriminate.
      * apply (IH After prev s (close_group s m) m' rest); auto.
        destruct Hst as (x & r0 & Ho & Hx & Hg & Hlen).
        assert (Hn : String.length (String x r0) - String.length s
                     = S (String.length r0 - String.length s)).
        { change (String.length (String x r0)) with (S (String.length r0)). lia. }
        unfold close_group. rewrite Ho. cbn [groups state_in]. rewrite Hg, Hn.
        cbn [PyStr.take app].
        exists x, (PyStr.take (String.length r0 - String.length s) r0), [].
        split; [reflexivity|exact Hx].
      * apply (IH After prev s (close_group s m) m' rest); auto.
        now apply head_visible_close.
Qed.

End FirstGroup.

Lemma refs_replace_visibly (ic : bool) (p : Re.pattern) (repl : list Re.piece) :
  ReShape.opens_visibly ReShape.Before p = true ->
  replaces_visibly ic p (Re.Ref 1 :: repl).
Proof.
  intros Hshape prev s gs extra H.
  apply match_at_inv in H as (m & rest & Hm & -> & _).
  apply (match_here_first_group ic p ReShape.Before) in Hm;
    [|exact Hshape|now split].
  destruct Hm as (x & g & more & -> & Hx).
  simpl. now rewrite Hx.
Qed.

Lemma rules_replace_visibly :
  Forall (fun r => replaces_visibly (Normalizer.rule_ic r) (Normalizer.rule_pattern r)
                     (Normalizer.rule_repl r))
         Normalizer.rules.
Proof.
  unfold Normalizer.rules.
  repeat apply Forall_cons; try apply Forall_nil;
    cbn [Normalizer.rule_ic Normalizer.rule_pattern Normalizer.rule_repl];
    try (apply refs_replace_visibly; reflexivity);
    intros prev s gs extra _; reflexivity.
Qed.

Lemma sub_from_visible (ic : bool) (p : Re.pattern) (repl : list Re.piece) :
  replaces_visibly ic p repl ->
  forall s prev skip,
    PyStr.all_space (Re.sub_from ic p repl prev s skip) = true ->
    PyStr.all_space (drop skip s) = true.
Proof.
  intros Hvis. induction s as [|c r IH]; intros prev skip H.
  - destruct skip; reflexivity.
  - cbn [Re.sub_from] in H. destruct skip as [|k].
    + destruct (Re.match_at ic p prev (String c r)) as [[gs extra]|] eqn:Hm.
      * rewrite all_space_append, (Hvis _ _ _ _ Hm) in H. discriminate.
      * simpl in H. apply andb_true_iff in H as [Hc Hr].
        simpl. rewrite Hc. simpl. exact (IH (Some c) 0 Hr).
    + simpl. now apply (IH (Some c) k).
Qed.

Lemma sub_visible (ic : bool) (p : Re.pattern) (repl : list Re.piece) (s : string) :
  replaces_visibly ic p repl ->
  PyStr.all_space s = false ->
  PyStr.all_space (Re.sub ic p repl s) = false.
Proof.
  intros Hvis Hs. destruct (PyStr.all_space (Re.sub ic p repl s)) eqn:E; [|reflexivity].
  apply (sub_from_visible ic p repl Hvis s None 0) in E.
  assert (Hd : drop 0 s = s) by (destruct s; reflexivity).
  rewrite Hd in E. congruence.
Qed.

(** In a blank text nothing is a word boundary, and every pattern of the
    normaliser starts at one. *)
Lemma no_boundary_in_blank (ic : bool) (p : Re.pattern) (s : string) (prev : option ascii) :
  PyStr.all_space s = true ->
  Re.word_before prev = false ->
  Re.search_from ic (Re.Boundary :: p) prev s = false.
Proof.
  revert prev. induction s as [|c r IH]; intros prev Hs Hprev; [reflexivity|].
  simpl in Hs. apply andb_true_iff in Hs as [Hc Hr].
  cbn [Re.search_from]. unfold Re.match_at. cbn [Re.match_here].
  unfold Re.at_boundary. rewrite Hprev. cbn [Re.word_after].
  rewrite (space_is_not_word c Hc). cbn [xorb].
  apply IH; [exact Hr|]. simpl. now apply space_is_not_word.
Qed.

Lemma blank_text_has_no_match (text : string) :
  PyStr.all_space text = true -> Normalizer.no_rule_matches text = true.
Proof.
  intros Hs. unfold Normalizer.no_rule_matches, Normalizer.rules. cbn [forallb].
  cbn [Normalizer.rule_ic Normalizer.rule_pattern].
  unfold Re.search, Normalizer.initials3, Normalizer.initials2,
    Normalizer.section_number, Normalizer.phrase.
  rewrite !(no_boundary_in_blank _ _ text None Hs eq_refl). reflexivity.
Qed.

Lemma normalize_visible (text : string) :
  PyStr.all_space text = false ->
  PyStr.all_space (Normalizer.normalize_legal_terms text) = false.
Proof.
  intros Hs.
  pose proof rules_replace_visibly as H. unfold Normalizer.rules in H.
  repeat match goal with
         | H : Forall _ (_ :: _) |- _ =>
             let H1 := fresh "Hrule" in
             apply Forall_cons_iff in H as [H1 H];
             cbn [Normalizer.rule_ic Normalizer.rule_pattern Normalizer.rule_repl] in H1
         end.
  unfold Normalizer.normalize_legal_terms.
  destruct text as [|c r]; [discriminate|]. cbn [PyStr.is_empty]. cbv zeta.
  repeat (apply sub_visible; [assumption|]).
  exact Hs.
Qed.

Lemma normalize_blankness (text : string) :
  PyStr.all_space (Normalizer.normalize_legal_terms text) = PyStr.all_space text.
Proof.
  destruct (PyStr.all_space text) eqn:Hs.
  - rewrite normalize_without_match; [exact Hs|]. now apply blank_text_has_no_match.
  - now apply normalize_visible.
Qed.

(** X13. The normaliser returns a blank text exactly when it is given one: it
    returns a blank text unchanged, and it never rewrites a text with a
    visible character into a blank one. *)
Theorem normalize_keeps_blankness (text : string) :
  PyStr.all_space (Normalizer.normalize_legal_terms text) = PyStr.all_space text
  /\ (PyStr.all_space text = true -> Normalizer.normalize_legal_terms text = text).
Proof.
  split; [apply normalize_blankness|].
  intros Hs. apply normalize_without_match. now apply blank_text_has_no_match.
Qed.

(** X14. The chunk of a weighted field, which the composer builds once the
    field has passed its own test (a value that is truthy and, where the
    code asks for it, not the sentinel): it is [weight] copies of the
    normalised text exactly when the first [cap] characters of the
    flattened value hold a visible character, and nothing otherwise.  The
    normaliser in between can neither make the chunk vanish nor make one
    of a blank text. *)
Theorem field_counts_iff_visible (v : value) (cap weight : nat) :
  Composer.chunk v cap weight
  = if PyStr.all_space (PyStr.take cap (flatten_field v))
    then []
    else repeat (Normalizer.normalize_legal_terms (PyStr.take cap (flatten_field v)))
                weight.
Proof.
  unfold Composer.chunk. cbv zeta.
  rewrite strip_empty_iff_all_space, normalize_blankness.
  destruct (PyStr.all_space _); reflexivity.
Qed.

(** ** The model only sees visible text *)

Section VisibleTexts.

Context {B : Backend}.

Lemma only_visible_log (w : world) (texts : list string) :
  only_visible_texts w ->
  Forall (fun t => PyStr.all_space t = false) texts ->
  only_visible_texts (log_encode texts w).
Proof.
  intros Hw Ht. unfold only_visible_texts. simpl.
  apply Forall_app. split; [exact Hw|]. now constructor.
Qed.

Lemma texts_to_embed_visible (cs : list value) :
  Forall (fun t => PyStr.all_space t = false) (texts_to_embed cs).
Proof.
  unfold texts_to_embed. rewrite map_map. apply Forall_forall.
  intros t Ht. apply in_map_iff in Ht as (case & <- & _).
  rewrite nonblank_spec, prepare_text_visible. simpl. apply prepare_text_visible.
Qed.

Lemma compute_embeddings_visible (w : world) :
  only_visible_texts w -> only_visible_texts (snd (compute_embeddings w)).
Proof.
  intros Hw. destruct (cases w) as [|c cs] eqn:Hc.
  - unfold compute_embeddings, try_except, bind, get, ret. rewrite Hc. exact Hw.
  - rewrite (compute_embeddings_run w c cs Hc).
    destruct (encode _); simpl;
      apply (only_visible_log w _ Hw), texts_to_embed_visible.
Qed.

Lemma save_embeddings_visible (w : world) :
  only_visible_texts w -> only_visible_texts (snd (save_embeddings w)).
Proof.
  unfold only_visible_texts. now rewrite save_embeddings_keeps_log.
Qed.

Lemma new_finder_visible (model_name : string) (w : world) :
  only_visible_texts w -> only_visible_texts (snd (new_finder model_name w)).
Proof.
  intros Hw. rewrite new_finder_unfold.
  set (w1 := set_cases (loaded_corpus w) (blank_finder w)).
  assert (Hw1 : only_visible_texts w1) by exact Hw.
  clearbody w1. unfold load_or_compute_embeddings, bind at 1, get.
  assert (Hre : only_visible_texts
                  (snd (bind compute_embeddings (fun _ => save_embeddings) w1))).
  { unfold bind. pose proof (compute_embeddings_visible w1 Hw1) as Hc.
    destruct (compute_embeddings w1) as [[[]|e] w2]; simpl in *.
    - now apply save_embeddings_visible.
    - exact Hc. }
  destruct (cache_file w1) as [[cache|]|]; [exact Hw1|exact Hre|exact Hre].
Qed.

(** X15. Whatever is done with a finder, building it or querying it either
    way, the model is never called with an empty or all-whitespace text. *)
Theorem model_only_sees_visible_text (w : world) :
  only_visible_texts w ->
  (forall model_name, only_visible_texts (snd (new_finder model_name w)))
  /\ (forall query_text topk,
        only_visible_texts (snd (find_similar_by_text query_text topk w)))
  /\ (forall query_case topk exclude_self,
        only_visible_texts (snd (find_similar query_case topk exclude_self w))).
Proof.
  intros Hw. split; [intros; now apply new_finder_visible|]. split.
  - intros query_text topk.
    unfold find_similar_by_text, try_except, bind, get, raise, lift, model_encode.
    destruct (embeddings w) as [stored|]; [|exact Hw].
    rewrite blank_query_test.
    destruct (PyStr.all_space query_text) eqn:Hq; [exact Hw|].
    assert (Hlog : only_visible_texts
                     (log_encode [Normalizer.normalize_legal_terms query_text] w)).
    { apply only_visible_log; [exact Hw|]. constructor; [|constructor].
      now apply normalize_visible. }
    destruct (encode _) as [qe|]; [|exact Hlog].
    destruct (similarities_of qe stored) as [sims|e]; [|exact Hlog].
    destruct (collect _ sims _) as [rs|e]; exact Hlog.
  - intros query_case topk exclude_self.
    unfold find_similar, try_except, bind, get, ret, lift, model_encode.
    destruct (embeddings w) as [stored|]; [|exact Hw].
    assert (Hlog : only_visible_texts
                     (log_encode [Composer.prepare_text_for_embedding query_case] w)).
    { apply only_visible_log; [exact Hw|]. constructor; [|constructor].
      apply prepare_text_visible. }
    destruct (encode _) as [qe|]; [|exact Hlog].
    destruct (similarities_of qe stored) as [sims|e]; [|exact Hlog].
    destruct exclude_self.
    + destruct (get_case_id query_case) as [query_id|e]; [|exact Hlog].
      destruct (exclude _ query_id _) as [tops|e]; [|exact Hlog].
      destruct (collect _ sims _) as [rs|e]; exact Hlog.
    + destruct (collect _ sims _) as [rs|e]; exact Hlog.
Qed.

End VisibleTexts.

(** ** The similarity route *)

Lemma blank_query_rejected_run {B : Backend} (w : world) (query_text : string) (topk : Z) :
  PyStr.all_space query_text = true ->
  find_similar_by_text query_text topk w
  = (Raise (match embeddings w with
            | Some _ => InvalidQuery
            | None => CacheUnavailable
            end), w).
Proof.
  intros Hblank. unfold find_similar_by_text, try_except, bind, get, raise.
  destruct (embeddings w) as [stored|]; [|reflexivity].
  rewrite blank_query_test, Hblank. reflexivity.
Qed.


Section ApiRoute.

Context {B : Backend}.

(** Without a corpus file the route answers 404 and touches nothing; with
    one it builds a new finder before it looks at the request, so a
    failing constructor is a 500 whatever was asked. *)
Lemma route_needs_corpus_and_finder (request : option Api.body) (w : world) :
  Api.find_similar_cases false request w = (Api.Refused 404 "No data available", w)
  /\ (forall e w1,
        new_finder Api.default_model w = (Raise e, w1) ->
        Api.find_similar_cases true request w = (Api.Failed e, w1)).
Proof.
  split; [reflexivity|].
  intros e w1 Hnew. unfold Api.find_similar_cases, Api.get_similarity_engine, bind.
  now rewrite Hnew.
Qed.

(** X16. The route refuses a missing or empty [query_text] with 400, but only
    after the finder was built, so the corpus may have been embedded and
    the cache written for it; a [query_text] of whitespace passes that
    test and comes back as a 500 carrying the finder's error. *)
Theorem route_empty_query_400_blank_query_500 (request : option Api.body)
    (w w1 : world) :
  new_finder Api.default_model w = (Ok tt, w1) ->
  (request = None \/ (exists b, request = Some b
                      /\ (Api.query_text b = None
                          \/ Api.query_text b = Some EmptyString)) ->
   Api.find_similar_cases true request w
   = (Api.Refused 400 "query_text is required", w1))
  /\ (forall b c r,
        request = Some b ->
        Api.query_text b = Some (String c r) ->
        PyStr.all_space (String c r) = true ->
        Api.find_similar_cases true request w
        = (Api.Failed (match embeddings w1 with
                       | Some _ => InvalidQuery
                       | None => CacheUnavailable
                       end), w1)).
Proof.
  intros Hnew. split.
  - intros Hreq. unfold Api.find_similar_cases, Api.get_similarity_engine, bind, ret.
    rewrite Hnew.
    destruct Hreq as [->|(b & -> & [Hq|Hq])]; simpl; rewrite ?Hq; reflexivity.
  - intros b c r -> Hq Hblank.
    unfold Api.find_similar_cases, Api.get_similarity_engine, bind, ret.
    rewrite Hnew. simpl. rewrite Hq. cbn [PyStr.is_empty].
    now rewrite (blank_query_rejected_run w1 (String c r) _ Hblank).
Qed.

(** X17. An answered request.  For a request whose [top_k] is an integer or
    is absent, a 200 answer reports as [count] the number of its results,
    and these are at most [top_k] when the request gives one that is not
    negative, and at most five when it gives none. *)
Theorem route_answer_is_bounded (corpus_exists : bool) (request : option Api.body)
    (w w2 : world) (results : list (value * Q)) (count : nat) :
  Api.find_similar_cases corpus_exists request w = (Api.Results results count, w2) ->
  count = List.length results
  /\ exists b,
       request = Some b
       /\ (Api.top_k b = None -> count <= 5)
       /\ (forall z, Api.top_k b = Some z -> (0 <= z)%Z -> count <= Z.to_nat z).
Proof.
  unfold Api.find_similar_cases, Api.get_similarity_engine, bind, ret.
  destruct corpus_exists; [|discriminate].
  destruct (new_finder Api.default_model w) as [[[]|e] w1] eqn:Hnew; [|discriminate].
  destruct request as [b|]; simpl; [|discriminate].
  destruct (Api.query_text b) as [[|c r]|] eqn:Hq; simpl; try discriminate.
  destruct (find_similar_by_text (String c r) _ w1) as [[rs|e] w3] eqn:Hrun;
    [|discriminate].
  intros E. injection E as <- <- <-.
  split; [reflexivity|]. exists b. split; [reflexivity|].
  assert (Hfst : fst (find_similar_by_text (String c r)
                        (match Api.top_k b with Some z => z | None => 5%Z end) w1)
                 = Ok rs) by now rewrite Hrun.
  apply find_similar_by_text_ok in Hfst as (sims & ->).
  assert (Hk : forall k, (0 <= k)%Z ->
               List.length (ranked (cases w1) sims (slice_to k (descending sims)))
               <= Z.to_nat k).
  { intros k Hpos. unfold ranked. rewrite length_map, slice_to_length.
    unfold slice_length. apply Z.leb_le in Hpos. rewrite Hpos. lia. }
  split.
  - intros Hnone. rewrite Hnone. apply (Hk 5%Z). lia.
  - intros z Hz Hpos. rewrite Hz. now apply Hk.
Qed.

End ApiRoute.

(** ** How many results *)

Lemma filter_length_perm {A : Type} (f : A -> bool) (l l' : list A) :
  Permutation l l' -> List.length (filter f l) = List.length (filter f l').
Proof.
  induction 1 as [|x l l' _ IH|x y l|l l' l'' _ IH1 _ IH2]; simpl.
  - reflexivity.
  - destruct (f x); simpl; now rewrite IH.
  - destruct (f x), (f y); reflexivity.
  - now rewrite IH1.
Qed.

Lemma filter_length_map {A C : Type} (f : C -> bool) (g : A -> C) (l : list A) :
  List.length (filter f (map g l)) = List.length (filter (fun a => f (g a)) l).
Proof.
  induction l as [|a l IH]; simpl; [reflexivity|].
  destruct (f (g a)); simpl; now rewrite IH.
Qed.

Lemma filter_by_position {A : Type} (f : A -> bool) (l : list A) (d : A) :
  List.length (filter (fun i => f (nth i l d)) (seq 0 (List.length l)))
  = List.length (filter f l).
Proof.
  transitivity
    (List.length (filter f (map (fun i => nth i l d) (seq 0 (List.length l))))).
  - symmetry. apply filter_length_map.
  - now rewrite nth_over_seq.
Qed.

Section ResultCounts.

Context {B : Backend}.

(** X9. The number of results of a text query is the length of the Python
    slice [[:topk]] of the ranking: the smaller of [topk] and the number of
    stored vectors when [topk] is not negative, none for zero, and all but
    the last [-topk] when it is negative. *)
Theorem text_query_result_count (w : world) (query_text : string) (topk : Z)
    (stored qe : matrix) (sims : list Q) (rest : matrix) :
  argsort_contract argsort ->
  embeddings w = Some stored ->
  PyStr.all_space query_text = false ->
  encode [Normalizer.normalize_legal_terms query_text] = Some qe ->
  cosine_similarity qe stored = Some (sims :: rest) ->
  List.length sims <= List.length (cases w) ->
  exists results,
    fst (find_similar_by_text query_text topk w) = Ok results
    /\ ((0 <= topk)%Z ->
        List.length results = Nat.min (Z.to_nat topk) (List.length sims))
    /\ ((topk < 0)%Z ->
        List.length results = List.length sims - Z.to_nat (- topk)).
Proof.
  intros Hsort Hemb Hq Henc Hcos Hlen.
  exists (ranked (cases w) sims (slice_to topk (descending sims))). split.
  - unfold find_similar_by_text, try_except, bind, get, raise, lift, model_encode.
    rewrite Hemb, blank_query_test, Hq, Henc.
    unfold similarities_of. rewrite Hcos.
    rewrite collect_in_range; [reflexivity|].
    intros idx Hidx. apply slice_to_incl in Hidx.
    apply (descending_in_range Hsort) in Hidx. lia.
  - unfold ranked. rewrite length_map, slice_to_length, (descending_length Hsort).
    unfold slice_length. split; intros Hk.
    + apply Z.leb_le in Hk. now rewrite Hk.
    + apply Z.leb_gt in Hk. now rewrite Hk.
Qed.

(** X10. Self-exclusion comes before the cut to [topk].  Over a corpus of
    mappings with one stored vector each, a query by case with
    self-exclusion returns as many results as [topk] asks for whenever
    that many cases have another id: the smaller of [topk] and the number
    of cases whose [case_id] differs from the query's. *)
Theorem self_exclusion_fills_topk (w : world) (query : dict) (topk : Z)
    (stored qe : matrix) (sims : list Q) (rest : matrix) :
  argsort_contract argsort ->
  embeddings w = Some stored ->
  encode [Composer.prepare_text_for_embedding (VDict query)] = Some qe ->
  cosine_similarity qe stored = Some (sims :: rest) ->
  List.length sims = List.length (cases w) ->
  forallb is_dict (cases w) = true ->
  (0 <= topk)%Z ->
  exists results,
    fst (find_similar (VDict query) topk true w) = Ok results
    /\ List.length results
       = Nat.min (Z.to_nat topk)
           (List.length (others (dict_get query "case_id" VNone) (cases w))).
Proof.
  intros Hsort Hemb Henc Hcos Hlen Hdict Hk.
  set (query_id := dict_get query "case_id" VNone).
  set (keep := fun idx => py_ne (case_id_of (nth idx (cases w) VNone)) query_id).
  assert (Hrange : Forall (fun idx => idx < List.length (cases w)) (descending sims)).
  { apply Forall_forall. intros idx Hidx.
    apply (descending_in_range Hsort) in Hidx. lia. }
  exists (ranked (cases w) sims (slice_to topk (filter keep (descending sims)))).
  split.
  - unfold find_similar, try_except, bind, get, ret, lift, model_encode.
    rewrite Hemb, Henc. unfold similarities_of. rewrite Hcos.
    cbn [get_case_id]. cbv beta iota. fold query_id.
    rewrite (exclude_in_range _ query_id _ Hdict Hrange). fold keep.
    rewrite collect_in_range; [reflexivity|].
    intros idx Hidx. apply slice_to_incl in Hidx.
    apply filter_In in Hidx as [Hidx _].
    apply (descending_in_range Hsort) in Hidx. lia.
  - unfold ranked. rewrite length_map, slice_to_length.
    unfold slice_length. apply Z.leb_le in Hk. rewrite Hk. f_equal.
    rewrite (filter_length_perm keep _ _ (descending_perm Hsort sims)).
    rewrite Hlen. unfold keep, others.
    apply (filter_by_position (fun c => py_ne (case_id_of c) query_id)).
Qed.

End ResultCounts.

(** ** Runs of the statements above *)

Lemma toy_dots_length (u : vector) (rows : matrix) (ds : list Q) :
  Toy.dots u rows = Some ds -> List.length ds = List.length rows.
Proof.
  revert ds. induction rows as [|v rows IH]; simpl; intros ds H.
  - now injection H as <-.
  - destruct (Toy.dot u v); [|discriminate].
    destruct (Toy.dots u rows) as [ds'|]; [|discriminate].
    injection H as <-. simpl. f_equal. now apply IH.
Qed.

Lemma toy_cosine_row_length (qe stored : matrix) (sims : list Q) (rest : matrix) :
  Toy.unit_cosine qe stored = Some (sims :: rest) ->
  List.length sims = List.length stored.
Proof.
  unfold Toy.unit_cosine. destruct qe as [|u qe]; [discriminate|].
  destruct stored as [|v stored]; [discriminate|].
  cbn [Toy.all_dots].
  destruct (Toy.dots u (v :: stored)) as [row|] eqn:Hrow; [|discriminate].
  destruct (Toy.all_dots qe (v :: stored)); [|discriminate].
  intros E. injection E as <- _. now apply toy_dots_length in Hrow.
Qed.

Lemma cold_start_embeds_and_saves_witness :
  (forall cache, cache_file Scenario2.first_start <> Some (Pickled cache))
  /\ judgments_file Scenario2.first_start = Some Scenario.corpus
  /\ @encode Toy.backend (texts_to_embed Scenario.corpus) = Some Scenario2.corpus_matrix
  /\ disk_writable Scenario2.first_start = true
  /\ cache_file (snd (@new_finder Toy.backend Api.default_model Scenario2.first_start))
     = Some (Pickled (CacheRecord Scenario2.corpus_matrix saved_model_name 2 3 "cpu")).
Proof.
  assert (Hno : forall cache, cache_file Scenario2.first_start <> Some (Pickled cache))
    by (intros cache; discriminate).
  assert (Henc : @encode Toy.backend (texts_to_embed Scenario.corpus)
                 = Some Scenario2.corpus_matrix) by (vm_compute; reflexivity).
  split; [exact Hno|]. split; [reflexivity|]. split; [exact Henc|].
  split; [reflexivity|].
  rewrite (@cold_start_embeds_and_saves Toy.backend Api.default_model
             Scenario2.first_start Scenario.case_A
             [Scenario.case_B; Scenario.case_C] Scenario2.corpus_matrix
             Hno eq_refl Henc eq_refl).
  reflexivity.
Defined.

Lemma failed_embedding_writes_no_cache_witness :
  (forall cache, cache_file Scenario2.first_start <> Some (Pickled cache))
  /\ judgments_file Scenario2.first_start = Some Scenario.corpus
  /\ @encode Scenario2.broken_backend (texts_to_embed Scenario.corpus) = None
  /\ fst (@new_finder Scenario2.broken_backend Api.default_model Scenario2.first_start)
     = Raise BackendFailure
  /\ cache_file
       (snd (@new_finder Scenario2.broken_backend Api.default_model
               Scenario2.first_start))
     = None.
Proof.
  assert (Hno : forall cache, cache_file Scenario2.first_start <> Some (Pickled cache))
    by (intros cache; discriminate).
  split; [exact Hno|]. split; [reflexivity|]. split; [reflexivity|].
  rewrite (@failed_embedding_writes_no_cache Scenario2.broken_backend Api.default_model
             Scenario2.first_start Scenario.case_A
             [Scenario.case_B; Scenario.case_C] Hno eq_refl eq_refl).
  split; reflexivity.
Defined.

Lemma empty_corpus_starts_without_embeddings_witness :
  cache_file Scenario2.no_corpus = None
  /\ loaded_corpus Scenario2.no_corpus = []
  /\ @new_finder Toy.backend Api.default_model Scenario2.no_corpus
     = (Ok tt, Scenario2.no_corpus).
Proof.
  split; [reflexivity|]. split; [reflexivity|].
  destruct (@empty_corpus_starts_without_embeddings Toy.backend Api.default_model
              Scenario2.no_corpus eq_refl eq_refl) as [Hstart _].
  exact Hstart.
Defined.

Lemma restart_reuses_saved_cache_witness :
  (forall cache, cache_file Scenario2.first_start <> Some (Pickled cache))
  /\ judgments_file Scenario2.first_start = Some Scenario.corpus
  /\ @encode Toy.backend (texts_to_embed Scenario.corpus) = Some Scenario2.corpus_matrix
  /\ disk_writable Scenario2.first_start = true
  /\ encoded
       (snd (@new_finder Toy.backend Api.default_model
               (snd (@new_finder Toy.backend Api.default_model Scenario2.first_start))))
     = [texts_to_embed Scenario.corpus].
Proof.
  assert (Hno : forall cache, cache_file Scenario2.first_start <> Some (Pickled cache))
    by (intros cache; discriminate).
  assert (Henc : @encode Toy.backend (texts_to_embed Scenario.corpus)
                 = Some Scenario2.corpus_matrix) by (vm_compute; reflexivity).
  split; [exact Hno|]. split; [reflexivity|]. split; [exact Henc|].
  split; [reflexivity|].
  rewrite (@restart_reuses_saved_cache Toy.backend Api.default_model Api.default_model
             Scenario2.first_start Scenario.case_A
             [Scenario.case_B; Scenario.case_C] Scenario2.corpus_matrix
             Hno eq_refl Henc eq_refl).
  vm_compute. reflexivity.
Defined.

Lemma rankings_pick_distinct_positions_witness :
  argsort_contract (@argsort Toy.backend)
  /\ List.length
       [(Scenario.case_B, 1%Q); (Scenario.case_A, 1%Q)] <= Z.to_nat 2.
Proof.
  split; [exact toy_argsort_contract|].
  destruct (@rankings_pick_distinct_positions Toy.backend
              (Scenario.ready (Some Scenario2.corpus_matrix)) toy_argsort_contract)
    as [Htext _].
  destruct (Htext "murder under section 302" 2%Z
              [(Scenario.case_B, 1%Q); (Scenario.case_A, 1%Q)])
    as (_ & _ & Hk); [vm_compute; reflexivity|].
  apply Hk. lia.
Defined.

Lemma large_topk_returns_whole_corpus_witness :
  argsort_contract (@argsort Toy.backend)
  /\ exists results,
       fst (@find_similar_by_text Toy.backend "murder under section 302" 10
              (Scenario.ready (Some Scenario2.corpus_matrix))) = Ok results
       /\ Permutation (map fst results) Scenario.corpus
       /\ List.length results = 3.
Proof.
  split; [exact toy_argsort_contract|].
  apply (@large_topk_returns_whole_corpus Toy.backend
           (Scenario.ready (Some Scenario2.corpus_matrix))
           "murder under section 302" 10%Z Scenario2.corpus_matrix
           [[1; 0]%Q] [1; 1; 0]%Q [] toy_argsort_contract).
  - reflexivity.
  - reflexivity.
  - vm_compute. reflexivity.
  - vm_compute. reflexivity.
  - reflexivity.
  - vm_compute. discriminate.
Defined.

Lemma longer_matrix_breaks_ranking_witness :
  argsort_contract (@argsort Toy.backend)
  /\ fst (@find_similar_by_text Toy.backend "murder under section 302" 4
            (Scenario.ready (Some Scenario2.longer_matrix))) = Raise IndexError
  /\ fst (@find_similar Toy.backend Scenario.case_A 1 true
            (Scenario.ready (Some Scenario2.longer_matrix))) = Ok [].
Proof.
  split; [exact toy_argsort_contract|].
  assert (Hlong : forall qe sims rest,
             @cosine_similarity Toy.backend qe Scenario2.longer_matrix
             = Some (sims :: rest) ->
             List.length (cases (Scenario.ready (Some Scenario2.longer_matrix)))
             < List.length sims).
  { intros qe sims rest H. apply toy_cosine_row_length in H. rewrite H. simpl. lia. }
  destruct (@longer_matrix_breaks_ranking Toy.backend
              (Scenario.ready (Some Scenario2.longer_matrix))
              Scenario2.longer_matrix toy_argsort_contract eq_refl Hlong)
    as [Htext Hcase].
  split; [|apply Hcase].
  apply (Htext "murder under section 302" 4%Z [[1; 0]%Q] [1; 1; 0; 0]%Q []).
  - reflexivity.
  - vm_compute. reflexivity.
  - vm_compute. reflexivity.
  - vm_compute. discriminate.
Defined.

Lemma model_only_sees_visible_text_witness :
  only_visible_texts Scenario2.first_start
  /\ only_visible_texts
       (snd (@new_finder Toy.backend Api.default_model Scenario2.first_start)).
Proof.
  assert (H : only_visible_texts Scenario2.first_start) by constructor.
  split; [exact H|].
  destruct (@model_only_sees_visible_text Toy.backend Scenario2.first_start H)
    as [Hnew _].
  apply Hnew.
Defined.

Lemma route_empty_query_400_blank_query_500_witness :
  @new_finder Toy.backend Api.default_model Scenario2.first_start
  = (Ok tt, snd (@new_finder Toy.backend Api.default_model Scenario2.first_start))
  /\ fst (@Api.find_similar_cases Toy.backend true (Some (Api.Body (Some "   ") None))
            Scenario2.first_start)
     = Api.Failed InvalidQuery
  /\ fst (@Api.find_similar_cases Toy.backend true (Some (Api.Body (Some EmptyString) None))
            Scenario2.first_start)
     = Api.Refused 400 "query_text is required".
Proof.
  assert (Hnew : @new_finder Toy.backend Api.default_model Scenario2.first_start
                 = (Ok tt, snd (@new_finder Toy.backend Api.default_model
                                  Scenario2.first_start)))
    by (vm_compute; reflexivity).
  split; [exact Hnew|].
  destruct (@route_empty_query_400_blank_query_500 Toy.backend
              (Some (Api.Body (Some "   ") None)) _ _ Hnew) as [_ Hblank].
  destruct (@route_empty_query_400_blank_query_500 Toy.backend
              (Some (Api.Body (Some EmptyString) None)) _ _ Hnew) as [Hempty _].
  split.
  - rewrite (Hblank _ " "%char "  " eq_refl eq_refl eq_refl). reflexivity.
  - rewrite Hempty; [reflexivity|].
    right. exists (Api.Body (Some EmptyString) None). split; [reflexivity|now right].
Defined.

Lemma route_answer_is_bounded_witness :
  fst (@Api.find_similar_cases Toy.backend true
            (Some (Api.Body (Some "murder under section 302") (Some 2%Z)))
            Scenario2.first_start)
  = Api.Results [(Scenario.case_B, 1%Q); (Scenario.case_A, 1%Q)] 2
  /\ 2 = List.length [(Scenario.case_B, 1%Q); (Scenario.case_A, 1%Q)].
Proof.
  assert (Hrun : @Api.find_similar_cases Toy.backend true
            (Some (Api.Body (Some "murder under section 302") (Some 2%Z)))
            Scenario2.first_start
          = (Api.Results [(Scenario.case_B, 1%Q); (Scenario.case_A, 1%Q)] 2,
             snd (@Api.find_similar_cases Toy.backend true
                    (Some (Api.Body (Some "murder under section 302") (Some 2%Z)))
                    Scenario2.first_start)))
    by (vm_compute; reflexivity).
  split; [now rewrite Hrun|].
  destruct (@route_answer_is_bounded Toy.backend true _ _ _ _ _ Hrun)
    as [Hcount _].
  exact Hcount.
Defined.

Lemma text_query_result_count_witness :
  argsort_contract (@argsort Toy.backend)
  /\ exists results,
       fst (@find_similar_by_text Toy.backend "murder under section 302" (-1)
              (Scenario.ready (Some Scenario2.corpus_matrix))) = Ok results
       /\ List.length results = 2.
Proof.
  split; [exact toy_argsort_contract|].
  destruct (@text_query_result_count Toy.backend
              (Scenario.ready (Some Scenario2.corpus_matrix))
              "murder under section 302" (-1)%Z Scenario2.corpus_matrix
              [[1; 0]%Q] [1; 1; 0]%Q [] toy_argsort_contract)
    as (results & Hrun & _ & Hneg).
  - reflexivity.
  - reflexivity.
  - vm_compute. reflexivity.
  - vm_compute. reflexivity.
  - simpl. lia.
  - exists results. split; [exact Hrun|]. rewrite Hneg by lia. reflexivity.
Defined.

Lemma self_exclusion_fills_topk_witness :
  argsort_contract (@argsort Toy.backend)
  /\ exists results,
       fst (@find_similar Toy.backend Scenario.case_A 2
              true (Scenario.ready (Some Scenario2.corpus_matrix))) = Ok results
       /\ List.length results = 2.
Proof.
  split; [exact toy_argsort_contract|].
  destruct (@self_exclusion_fills_topk Toy.backend
              (Scenario.ready (Some Scenario2.corpus_matrix))
              [("case_id", VStr "A"); ("summary", VStr "murder case IPC 302")]
              2%Z Scenario2.corpus_matrix
              [[1; 0]%Q] [1; 1; 0]%Q [] toy_argsort_contract)
    as (results & Hrun & Hlen).
  - reflexivity.
  - vm_compute. reflexivity.
  - vm_compute. reflexivity.
  - reflexivity.
  - reflexivity.
  - lia.
  - exists results. split; [exact Hrun|]. rewrite Hlen. vm_compute. reflexivity.
Defined.

(** ** The keys the composer reads *)

Lemma dict_get_on (c1 c2 : dict) (k : string) (default : value) :
  lookup k c1 = lookup k c2 -> dict_get c1 k default = dict_get c2 k default.
Proof. intros H. unfold dict_get. now rewrite H. Qed.

(** One binding of [compose_parts] at a time, for two cases that agree on
    the keys read. *)
Ltac step_keys c1 c2 H :=
  lazymatch goal with
  | |- (let x := ?v1 in @?b1 x) = (let y := ?v2 in @?b2 y) =>
      refine (let_ext v1 v2 b1 b2 _ _);
      [ repeat match goal with
               | |- context [dict_get c1 ?k ?d] =>
                   rewrite (dict_get_on c1 c2 k d (H k ltac:(simpl; tauto)))
               end;
        reflexivity
      | intros ?bound; cbv beta ]
  end.

Lemma compose_parts_on_keys (c1 c2 : dict) :
  (forall k, In k composer_keys -> lookup k c1 = lookup k c2) ->
  Composer.compose_parts c1 = Composer.compose_parts c2.
Proof.
  intros H. cbv beta delta [Composer.compose_parts].
  repeat step_keys c1 c2 H. reflexivity.
Qed.

(** X18. The composite of a case depends on seventeen of its keys and on
    nothing else: two cases that have entries and agree on those keys
    compose to the same text, whatever else they hold, the full judgment
    text, the judges or the parties included. *)
Theorem composite_reads_only_its_keys (c1 c2 : dict) :
  c1 <> [] -> c2 <> [] ->
  (forall k, In k composer_keys -> lookup k c1 = lookup k c2) ->
  Composer.prepare_text_for_embedding (VDict c1)
  = Composer.prepare_text_for_embedding (VDict c2).
Proof.
  intros H1 H2 H.
  destruct c1 as [|e1 d1]; [congruence|]. destruct c2 as [|e2 d2]; [congruence|].
  rewrite !prepare_text_nonempty_dict.
  rewrite (compose_parts_on_keys _ _ H).
  unfold Composer.placeholder.
  rewrite (dict_get_on _ _ "case_id" (VStr "unknown") (H "case_id" ltac:(simpl; tauto))).
  reflexivity.
Qed.

Lemma composite_reads_only_its_keys_witness :
  Scenario.summary_then_court <> []
  /\ (("full_judgment_text", VStr "IN THE HIGH COURT OF DELHI")
        :: Scenario.summary_then_court) <> []
  /\ Composer.prepare_text_for_embedding
       (VDict (("full_judgment_text", VStr "IN THE HIGH COURT OF DELHI")
                 :: Scenario.summary_then_court))
     = Composer.prepare_text_for_embedding (VDict Scenario.summary_then_court).
Proof.
  split; [discriminate|]. split; [discriminate|].
  apply composite_reads_only_its_keys; try discriminate.
  intros k Hk. simpl.
  destruct (String.eqb k "full_judgment_text") eqn:E; [|reflexivity].
  apply String.eqb_eq in E. subst k. simpl in Hk.
  repeat (destruct Hk as [Hk|Hk]; [discriminate|]). destruct Hk.
Defined.
